(** * J1939 signal encoder: a shallow embedding of [backend/app.py]

    The development follows the Python module top to bottom: the signal
    catalog ([LIVE_SIGNALS]), the static methods of [J1939Encoder]
    ([calculate_can_id], [physical_to_raw], [encode_value], [encode_spn]),
    the [/api/encode] route and the two Socket.IO handlers that drive the
    live simulation flag.

    Python values are modelled as the interpreter has them:
    - [int] is unbounded, so it is [Z]; [>>], [<<], [&], [|] and [~] are
      [Z.shiftr], [Z.shiftl], [Z.land], [Z.lor] and [Z.lnot] (two's
      complement on negative numbers, as in Python); [//] and [%] by a
      positive constant are [Z.div] and [Z.modulo];
    - [float] is an IEEE 754 binary64, so it is the primitive [float] of
      Rocq with its correctly rounded [-] and [/];
    - a raised exception is the [Raise] branch of [result]. *)

From Stdlib Require Import ZArith QArith Qabs Floats List String Ascii Bool.
From Stdlib Require Import Lia Lqa Sorted Permutation.
From coqutil Require Import Z.bitblast.
Import ListNotations.

Local Open Scope Z_scope.

(** ** Exceptions and results *)

(** The exception classes the modelled code can raise, each with the
    message [str(e)] shows. *)
Inductive pyexn : Type :=
| ValueError (msg : string)
| OverflowError (msg : string)
| TypeError (msg : string)
| IndexError (msg : string)
| AttributeError (msg : string)
| HTTPException (msg : string).

Definition str (e : pyexn) : string :=
  match e with
  | ValueError m | OverflowError m | TypeError m | IndexError m
  | AttributeError m | HTTPException m => m
  end.

Inductive result (A : Type) : Type :=
| Ok (a : A)
| Raise (e : pyexn).

Arguments Ok {A} a.
Arguments Raise {A} e.

Definition bind {A B : Type} (r : result A) (k : A -> result B) : result B :=
  match r with
  | Ok a => k a
  | Raise e => Raise e
  end.

Notation "x <- r ;; k" := (bind r (fun x => k))
  (at level 61, r at next level, right associativity).

(** ** Python builtins used by the module *)

(** The rational number a finite binary64 stands for, in lowest terms. *)
Definition SF2Q (x : spec_float) : Q :=
  match x with
  | S754_finite s m e =>
      let n := if s then Z.neg m else Z.pos m in
      Qred (if 0 <=? e then inject_Z (n * 2 ^ e)
            else Qmake n (Z.to_pos (2 ^ (- e))))
  | _ => 0%Q
  end.

(** [float_value x] is the exact value of [x], or [None] for NaN and the
    infinities. *)
Definition float_value (x : float) : option Q :=
  match Prim2SF x with
  | S754_nan | S754_infinity _ => None
  | sf => Some (SF2Q sf)
  end.

(** Rounding of a rational to the nearest integer, a tie going to the even
    neighbour: what [round(x)] returns for the value of a finite float. *)
Definition round_half_even (q : Q) : Z :=
  let n := Qnum q in
  let d := Z.pos (Qden q) in
  let fl := n / d in
  match 2 * (n mod d) ?= d with
  | Lt => fl
  | Gt => fl + 1
  | Eq => if Z.even fl then fl else fl + 1
  end.

(** [round(x)] with one argument: an [int], or the exception
    [float.__round__] raises on NaN and on an infinity. *)
Definition py_round (x : float) : result Z :=
  match Prim2SF x with
  | S754_nan => Raise (ValueError "cannot convert float NaN to integer")
  | S754_infinity _ =>
      Raise (OverflowError "cannot convert float infinity to integer")
  | sf => Ok (round_half_even (SF2Q sf))
  end.

(** A value as [request.json] hands it over: [None], a [bool], an [int]
    of any size, a [float] (NaN and the infinities included), a [str], a
    [list], or a [dict] with its items in order ([get] reads the first
    item of a key; a [dict] has one at most). *)
#[warnings="-register-all"]
Inductive pyval : Type :=
| JNull
| JBool (b : bool)
| JInt (z : Z)
| JFloat (f : float)
| JString (s : string)
| JArray (items : list pyval)
| JObject (members : list (string * pyval)).

(** [type(v).__name__] *)
Definition type_name (v : pyval) : string :=
  match v with
  | JNull => "NoneType"
  | JBool _ => "bool"
  | JInt _ => "int"
  | JFloat _ => "float"
  | JString _ => "str"
  | JArray _ => "list"
  | JObject _ => "dict"
  end.

(** [float(int)]: the nearest binary64, ties to even. *)
Definition float_of_int (z : Z) : float :=
  SF2Prim (binary_normalize prec emax z 0 false).

(** The conversion of an [int] operand to a [float], as [float(z)] and
    [z / 1000.0] do it: an [int] beyond the binary64 range is refused. *)
Definition int_to_float (z : Z) : result float :=
  let f := float_of_int z in
  match Prim2SF f with
  | S754_infinity _ => Raise (OverflowError "int too large to convert to float")
  | _ => Ok f
  end.

(** The builtin [float(v)].  What it makes of a [str] (the number the
    text denotes, or a [ValueError]) is left open: [float_from_string] is
    a parameter of everything that converts a request value. *)
Definition py_float (float_from_string : string -> result float) (v : pyval)
  : result float :=
  match v with
  | JBool b => Ok (if b then 1%float else 0%float)
  | JInt z => int_to_float z
  | JFloat f => Ok f
  | JString s => float_from_string s
  | JNull | JArray _ | JObject _ =>
      Raise (TypeError
        ("float() argument must be a string or a real number, not '"
         ++ type_name v ++ "'"))
  end.

(** [d.get(key, default)] on a key that may be missing. *)
Definition get {A : Type} (entry : option A) (default : A) : A :=
  match entry with
  | Some a => a
  | None => default
  end.

(** The item of [key] in a [dict] held as the list of its items. *)
Fixpoint item (key : string) (members : list (string * pyval))
  : option pyval :=
  match members with
  | [] => None
  | (k, v) :: tl => if String.eqb key k then Some v else item key tl
  end.

(** [data.get(key, default)] on a value of any type: only a [dict] has
    the method. *)
Definition data_get (data : pyval) (key : string) (default : pyval)
  : result pyval :=
  match data with
  | JObject members => Ok (get (item key members) default)
  | _ =>
      Raise (AttributeError
        ("'" ++ type_name data ++ "' object has no attribute 'get'"))
  end.

(** [bytearray] indexing: an index in [-len, len) is accepted, a negative
    one counting from the end. *)
Definition index_of (data : list Z) (i : Z) : result nat :=
  let len := Z.of_nat (List.length data) in
  if (0 <=? i) && (i <? len) then Ok (Z.to_nat i)
  else if (- len <=? i) && (i <? 0) then Ok (Z.to_nat (i + len))
  else Raise (IndexError "bytearray index out of range").

Definition getitem (data : list Z) (i : Z) : result Z :=
  k <- index_of data i ;; Ok (nth k data 0).

Fixpoint update (data : list Z) (k : nat) (v : Z) : list Z :=
  match data, k with
  | [], _ => []
  | _ :: tl, O => v :: tl
  | hd :: tl, S k' => hd :: update tl k' v
  end.

(** [data[i] = v]: a byte outside [range(0, 256)] is refused. *)
Definition setitem (data : list Z) (i v : Z) : result (list Z) :=
  k <- index_of data i ;;
  if (0 <=? v) && (v <? 256) then Ok (update data k v)
  else Raise (ValueError "byte must be in range(0, 256)").

(** [range(n)] as the list of its values. *)
Definition range (n : Z) : list Z :=
  map Z.of_nat (seq 0 (Z.to_nat n)).

(** *** Number formatting *)

Definition digit_char (d : Z) : ascii :=
  if d <? 10 then ascii_of_nat (Z.to_nat (48 + d))
  else ascii_of_nat (Z.to_nat (65 + (d - 10))).

Fixpoint digits_of (fuel : nat) (base n : Z) (acc : string) : string :=
  let acc' := String (digit_char (n mod base)) acc in
  match fuel with
  | O => acc'
  | S fuel' => if n <? base then acc' else digits_of fuel' base (n / base) acc'
  end.

Fixpoint zeros (k : nat) : string :=
  match k with
  | O => EmptyString
  | S k' => String "0" (zeros k')
  end.

(** [format(n, "0<width><X|b>")]: the digits of [|n|] in upper case, zero
    padded to [width] characters, the sign counted in the width. *)
Definition format_int (base : Z) (width : nat) (n : Z) : string :=
  let ds := digits_of (Z.to_nat (Z.log2 (Z.abs n))) base (Z.abs n) EmptyString in
  if n <? 0
  then String "-" (zeros (width - 1 - String.length ds) ++ ds)
  else zeros (width - String.length ds) ++ ds.

(** [bytearray.hex().upper()] *)
Fixpoint hex_upper (data : list Z) : string :=
  match data with
  | [] => EmptyString
  | b :: tl => format_int 16 2 b ++ hex_upper tl
  end.

(** ** The signal catalog *)

(** One entry of [LIVE_SIGNALS]: a dictionary, every key of which
    [encode_spn] reads with [.get] and a default. *)
Module Config.
Record t : Type := Build {
  pgn : option Z;
  spn : option Z;
  name : option string;
  resolution : option float;
  offset : option float;
  unit : option string;
  transmission_rate : option Z;
  min_physical : option float;
  max_physical : option float;
  start_byte : option Z;
  start_bit : option Z;
  length_bits : option Z
}.
End Config.

Definition signal
    (pgn spn : Z) (name : string) (resolution offset : float) (unit : string)
    (transmission_rate : Z) (min_physical max_physical : float)
    (start_byte start_bit length_bits : Z) : Config.t :=
  Config.Build (Some pgn) (Some spn) (Some name) (Some resolution) (Some offset)
    (Some unit) (Some transmission_rate) (Some min_physical) (Some max_physical)
    (Some start_byte) (Some start_bit) (Some length_bits).

(** [LIVE_SIGNALS], in declaration order (a [dict] iterates in insertion
    order).  [250.996] is not a binary64; the literal denotes the nearest
    one, written here in full. *)
Definition LIVE_SIGNALS : list (string * Config.t) :=
  [ ("engine_speed"%string,
     signal 61444 190 "Engine Speed" 0.125 0 "rpm" 50 0 8031.875 4 1 16);
    ("vehicle_speed"%string,
     signal 65265 84 "Vehicle Speed" (1 / 256) 0 "km/h" 100
       0 0x1.f5fdf3b645a1dp+7 2 1 16);
    ("cab_temperature"%string,
     signal 65269 170 "Cab Temperature" 0.03125 (-273) "°C" 1000
       (-273) 1735 2 1 16);
    ("driver_torque"%string,
     signal 61444 512 "Driver Torque" 1 (-125) "%" 50 (-125) 125 2 1 8) ].

(** [LIVE_SIGNALS[signal_id]], [None] when [signal_id not in LIVE_SIGNALS]. *)
Fixpoint lookup (signal_id : string) (signals : list (string * Config.t))
  : option Config.t :=
  match signals with
  | [] => None
  | (key, config) :: tl =>
      if String.eqb signal_id key then Some config else lookup signal_id tl
  end.

(** The membership test [signal_id in LIVE_SIGNALS] together with the
    entry [LIVE_SIGNALS[signal_id]] it guards.  The test hashes its
    operand first: a [list] or a [dict] is refused; [None] (a missing
    [signal_id]), a [bool] and a number are hashable and equal to none of
    the keys, which are strings. *)
Definition live_signal (signal_id : pyval) : result (option Config.t) :=
  match signal_id with
  | JString id => Ok (lookup id LIVE_SIGNALS)
  | JNull | JBool _ | JInt _ | JFloat _ => Ok None
  | JArray _ | JObject _ =>
      Raise (TypeError ("unhashable type: '" ++ type_name signal_id ++ "'"))
  end.

(** ** The encoder *)

(** The dictionary [encode_spn] returns. *)
Module Frame.
Record t : Type := Build {
  physical_value : float;
  raw_value : Z;
  raw_hex : string;
  raw_binary : string;
  data_bytes : string;
  data_array : list Z;
  can_id : Z;
  can_id_hex : string;
  pgn : Z;
  pgn_hex : string;
  spn : option Z;
  resolution : float;
  offset : float;
  unit : string
}.
End Frame.

Module J1939Encoder.

Definition calculate_can_id (pgn source_address : Z) : Z :=
  let priority := 6 in
  let '(pdu_format, pdu_specific) :=
    if pgn <? 0xF000
    then (Z.land (Z.shiftr pgn 8) 0xFF, Z.land pgn 0xFF)
    else (Z.land (Z.shiftr pgn 8) 0xFF, 0xFF) in
  let can_id := Z.shiftl (Z.land priority 0x7) 26 in
  let can_id := Z.lor can_id (Z.shiftl (Z.land 0 0x1) 25) in
  let can_id := Z.lor can_id (Z.shiftl (Z.land 0 0x1) 24) in
  let can_id := Z.lor can_id (Z.shiftl (Z.land pdu_format 0xFF) 16) in
  let can_id := Z.lor can_id (Z.shiftl (Z.land pdu_specific 0xFF) 8) in
  let can_id := Z.lor can_id (Z.land source_address 0xFF) in
  can_id.

Definition physical_to_raw (physical_value resolution offset : float)
  : result Z :=
  if (resolution =? 0)%float
  then Raise (ValueError "Resolution cannot be zero")
  else
    raw <- py_round ((physical_value - offset) / resolution)%float ;;
    Ok (Z.max 0 raw).

(** One iteration of the packing loop: bit [i] of [raw_value] is written
    into [data]. *)
Definition encode_bit (raw_value byte_idx bit_idx : Z)
    (data : list Z) (i : Z) : result (list Z) :=
  let bit_value := Z.land (Z.shiftr raw_value i) 0x01 in
  let current_byte := byte_idx + (bit_idx + i) / 8 in
  let current_bit := (bit_idx + i) mod 8 in
  old <- getitem data current_byte ;;
  if bit_value =? 0
  then setitem data current_byte (Z.land old (Z.lnot (Z.shiftl 1 current_bit)))
  else setitem data current_byte (Z.lor old (Z.shiftl 1 current_bit)).

Fixpoint encode_loop (raw_value byte_idx bit_idx : Z)
    (data : list Z) (indices : list Z) : result (list Z) :=
  match indices with
  | [] => Ok data
  | i :: rest =>
      data' <- encode_bit raw_value byte_idx bit_idx data i ;;
      encode_loop raw_value byte_idx bit_idx data' rest
  end.

Definition encode_value (raw_value start_byte start_bit length_bits : Z)
  : result (list Z) :=
  let data := repeat 0 8 in
  let byte_idx := start_byte - 1 in
  let bit_idx := start_bit - 1 in
  if length_bits <? 0 then Raise (ValueError "negative shift count")
  else
    let max_value := Z.shiftl 1 length_bits - 1 in
    let raw_value := if raw_value >? max_value then max_value else raw_value in
    encode_loop raw_value byte_idx bit_idx data (range length_bits).

Definition encode_spn (physical_value : float) (spn_config : Config.t)
  : result Frame.t :=
  let resolution := get (Config.resolution spn_config) 1%float in
  let offset := get (Config.offset spn_config) 0%float in
  let start_byte := get (Config.start_byte spn_config) 1 in
  let start_bit := get (Config.start_bit spn_config) 1 in
  let length_bits := get (Config.length_bits spn_config) 8 in
  raw_value <- physical_to_raw physical_value resolution offset ;;
  data <- encode_value raw_value start_byte start_bit length_bits ;;
  let pgn := get (Config.pgn spn_config) 0 in
  let can_id := calculate_can_id pgn 0 in
  Ok {| Frame.physical_value := physical_value;
        Frame.raw_value := raw_value;
        Frame.raw_hex := ("0x" ++ format_int 16 0 raw_value)%string;
        Frame.raw_binary := format_int 2 (Z.to_nat length_bits) raw_value;
        Frame.data_bytes := hex_upper data;
        Frame.data_array := data;
        Frame.can_id := can_id;
        Frame.can_id_hex := ("0x" ++ format_int 16 8 can_id)%string;
        Frame.pgn := pgn;
        Frame.pgn_hex := ("0x" ++ format_int 16 4 pgn)%string;
        Frame.spn := Config.spn spn_config;
        Frame.resolution := resolution;
        Frame.offset := offset;
        Frame.unit := get (Config.unit spn_config) EmptyString |}.

End J1939Encoder.

(** ** The [/api/encode] route *)

(** What [jsonify] is given. *)
Inductive body : Type :=
| Encoded (frame : Frame.t)
| Error (error : string).

(** A response: the body and the HTTP status. *)
Definition response : Type := (body * Z)%type.

(** The route is a function of what evaluating [request.json] gives: the
    parsed body, whatever its type, or the exception Flask raises instead
    (werkzeug's [BadRequest] for a body that does not parse, among them an
    integer literal the interpreter refuses for its length;
    [UnsupportedMediaType] for another content type).  Every statement of
    the [try] block can raise, and the handler turns whatever is raised
    into [str(e)] with status 500. *)
Definition encode_value (float_from_string : string -> result float)
    (request_json : result pyval) : response :=
  let attempt :=
    data <- request_json ;;
    signal_id <- data_get data "signal_id" JNull ;;
    value <- data_get data "physical_value" (JInt 0) ;;
    physical_value <- py_float float_from_string value ;;
    known <- live_signal signal_id ;;
    match known with
    | None => Ok (Error "Invalid signal ID", 400)
    | Some config =>
        result <- J1939Encoder.encode_spn physical_value config ;;
        Ok (Encoded result, 200)
    end in
  match attempt with
  | Ok r => r
  | Raise e => (Error (str e), 500)
  end.

(** ** The live simulation handlers *)

(** [emit('simulation_status', {"active": ...})] *)
Inductive event : Type :=
| simulation_status (active : bool).

(** The two module globals, the worker threads that were started and have
    not returned (by creation number), and what was emitted so far. *)
Module Sim.
Record t : Type := Build {
  live_simulation_active : bool;
  live_simulation_thread : option nat;
  created : nat;
  workers : list nat;
  emitted : list event
}.
End Sim.

(** The state the module is loaded with. *)
Definition initial : Sim.t :=
  Sim.Build false None 0 [] [].

Definition start_live_simulation (s : Sim.t) : Sim.t :=
  if negb (Sim.live_simulation_active s)
  then
    let thread := Sim.created s in
    {| Sim.live_simulation_active := true;
       Sim.live_simulation_thread := Some thread;
       Sim.created := S (Sim.created s);
       Sim.workers := Sim.workers s ++ [thread];
       Sim.emitted := Sim.emitted s ++ [simulation_status true] |}
  else s.

Definition stop_live_simulation (s : Sim.t) : Sim.t :=
  {| Sim.live_simulation_active := false;
     Sim.live_simulation_thread := Sim.live_simulation_thread s;
     Sim.created := Sim.created s;
     Sim.workers := Sim.workers s;
     Sim.emitted := Sim.emitted s ++ [simulation_status false] |}.

(** The test at the head of the loop of [live_simulation_worker]: the
    worker goes on with a pass while the flag is set and returns
    otherwise. *)
Definition worker_loop_head (thread : nat) (s : Sim.t) : Sim.t :=
  if Sim.live_simulation_active s then s
  else
    {| Sim.live_simulation_active := Sim.live_simulation_active s;
       Sim.live_simulation_thread := Sim.live_simulation_thread s;
       Sim.created := Sim.created s;
       Sim.workers := filter (fun w => negb (Nat.eqb w thread)) (Sim.workers s);
       Sim.emitted := Sim.emitted s |}.

(** The [except] branch of [live_simulation_worker]: the exception is
    printed and the loop is left with [break], so the thread returns; the
    flag is not touched. *)
Definition worker_break (thread : nat) (s : Sim.t) : Sim.t :=
  {| Sim.live_simulation_active := Sim.live_simulation_active s;
     Sim.live_simulation_thread := Sim.live_simulation_thread s;
     Sim.created := Sim.created s;
     Sim.workers := filter (fun w => negb (Nat.eqb w thread)) (Sim.workers s);
     Sim.emitted := Sim.emitted s |}.

(** The two Socket.IO events a client can send, and the handlers run on a
    sequence of them. *)
Inductive command : Type :=
| start_command
| stop_command.

Definition handle (s : Sim.t) (c : command) : Sim.t :=
  match c with
  | start_command => start_live_simulation s
  | stop_command => stop_live_simulation s
  end.

Definition handle_all (commands : list command) (s : Sim.t) : Sim.t :=
  fold_left handle commands s.

(** ** One pass of the live simulation worker *)

(** The dictionary emitted as a ['live_signal'] event. *)
Module LiveSignal.
Record t : Type := Build {
  signal_id : string;
  timestamp : float;
  physical_value : float;
  raw_value : Z;
  data_bytes : string;
  can_id_hex : string;
  unit : string
}.
End LiveSignal.

(** What a pass does to the outside: [socketio.emit('live_signal', ...)]
    and [time.sleep(...)]. *)
Inductive effect : Type :=
| emit_live_signal (payload : LiveSignal.t)
| sleep (seconds : float).

(** What can end a pass: a missing key of a configuration read by
    indexing, or an exception of the encoder or of a builtin. *)
Inductive worker_exn : Type :=
| KeyError (key : string)
| Raised (e : pyexn).

(** [time.sleep(seconds)] on a [float]: NaN is refused; the length is
    brought to nanoseconds, which must fit a signed 64-bit integer (the
    text of that [OverflowError] differs between interpreter versions);
    and what is left must not be negative. *)
Definition time_sleep (seconds : float) : result effect :=
  if is_nan seconds
  then Raise (ValueError "Invalid value NaN (not a number)")
  else
    let nanoseconds := (seconds * 1e9)%float in
    if (- 0x1p63 <=? nanoseconds)%float && (nanoseconds <? 0x1p63)%float
    then
      if (nanoseconds <? 0)%float
      then Raise (ValueError "sleep length must be non-negative")
      else Ok (sleep seconds)
    else Raise (OverflowError "timestamp too large to convert to C _PyTime_t").

(** [random.uniform(a, b)], [u] being the value [random.random()]
    returns. *)
Definition uniform (a b u : float) : float :=
  (a + (b - a) * u)%float.

(** The body of the [for] loop for one signal, given the random number
    and the clock reading ([time.time()]) of this iteration: the effects
    it has, and the exception that ends it, if any. *)
Definition worker_step (entry : string * Config.t) (u now : float)
  : list effect * option worker_exn :=
  let (signal_id, config) := entry in
  match Config.min_physical config with
  | None => ([], Some (KeyError "min_physical"))
  | Some min_physical =>
  match Config.max_physical config with
  | None => ([], Some (KeyError "max_physical"))
  | Some max_physical =>
  let physical_value := uniform min_physical max_physical u in
  match J1939Encoder.encode_spn physical_value config with
  | Raise e => ([], Some (Raised e))
  | Ok encoded =>
  match Config.unit config with
  | None => ([], Some (KeyError "unit"))
  | Some unit =>
  let payload :=
    {| LiveSignal.signal_id := signal_id;
       LiveSignal.timestamp := (now * 1000)%float;
       LiveSignal.physical_value := physical_value;
       LiveSignal.raw_value := Frame.raw_value encoded;
       LiveSignal.data_bytes := Frame.data_bytes encoded;
       LiveSignal.can_id_hex := Frame.can_id_hex encoded;
       LiveSignal.unit := unit |} in
  match Config.transmission_rate config with
  | None => ([emit_live_signal payload], Some (KeyError "transmission_rate"))
  | Some transmission_rate =>
  match int_to_float transmission_rate with
  | Raise e => ([emit_live_signal payload], Some (Raised e))
  | Ok rate =>
      match time_sleep (rate / 1000)%float with
      | Raise e => ([emit_live_signal payload], Some (Raised e))
      | Ok slept => ([emit_live_signal payload; slept], None)
      end
  end end end end end end.

(** One pass of the [for] loop over the signals, [random k] and [time k]
    being the random number and the clock reading of iteration [k]. *)
Fixpoint worker_pass (signals : list (string * Config.t))
    (random time : nat -> float) (k : nat)
  : list effect * option worker_exn :=
  match signals with
  | [] => ([], None)
  | entry :: rest =>
      match worker_step entry (random k) (time k) with
      | (effects, Some exn) => (effects, Some exn)
      | (effects, None) =>
          let (more, outcome) := worker_pass rest random time (S k) in
          (effects ++ more, outcome)
      end
  end.

(** The events among the effects, in order. *)
Definition emitted_events (effects : list effect) : list LiveSignal.t :=
  flat_map (fun e => match e with
                     | emit_live_signal payload => [payload]
                     | sleep _ => []
                     end) effects.

(** ** The PGN catalog and its routes *)

(** One entry of ["spns"] in [PGN_DATABASE].  [get_spns] reads
    ["start_bit"] with [.get] and a default, the other keys by
    indexing; ["transmission_rate"] is a text or a number of
    milliseconds. *)
Module Spn.
Record t : Type := Build {
  name : string;
  dlc : Z;
  start_byte : Z;
  start_bit : option Z;
  length_bits : Z;
  transmission_rate : string + Z;
  resolution : float;
  offset : float;
  unit : string;
  min_data : float;
  max_data : float;
  min_oper : option float;
  max_oper : option float
}.
End Spn.

(** One entry of [PGN_DATABASE]. *)
Module Pgn.
Record t : Type := Build {
  name : string;
  priority : Z;
  spns : list (Z * Spn.t)
}.
End Pgn.

(** [250.996] is written as the binary64 the literal denotes. *)
Definition PGN_DATABASE : list (Z * Pgn.t) :=
  [ (61444,
     Pgn.Build "Engine Torque / Speed" 3
       [ (190,
          Spn.Build "Engine Speed" 8 4 (Some 1) 16 (inl "Fixed 10–50 ms"%string)
            0.125 0 "rpm" 0 8031.875 None None);
         (512,
          Spn.Build "Driver Demand Engine % Torque" 8 2 (Some 1) 8
            (inl "Fixed 10–50 ms"%string)
            1 (-125) "%" (-125) 125 (Some (-125)%float) (Some 125%float)) ]);
    (65265,
     Pgn.Build "Vehicle Speed" 6
       [ (84,
          Spn.Build "Wheel-Based Vehicle Speed" 8 2 (Some 1) 16 (inr 100)
            (1 / 256) 0 "km/h" 0 0x1.f5fdf3b645a1dp+7 None None) ]);
    (65269,
     Pgn.Build "Environmental Data" 6
       [ (170,
          Spn.Build "Cab Interior Temperature" 8 2 (Some 1) 16 (inr 1000)
            0.03125 (-273) "°C" (-273) 1735 None None) ]) ].

(** [sorted(items, key=...)]: a stable sort by an integer key, as an
    insertion sort. *)
Fixpoint insert_by {A : Type} (key : A -> Z) (x : A) (l : list A) : list A :=
  match l with
  | [] => [x]
  | y :: tl => if key x <=? key y then x :: y :: tl else y :: insert_by key x tl
  end.

Definition sorted {A : Type} (key : A -> Z) (l : list A) : list A :=
  fold_right (insert_by key) [] l.

(** An item of the list [get_pgns] returns. *)
Module PgnItem.
Record t : Type := Build {
  pgn : Z;
  hex : string;
  name : string
}.
End PgnItem.

(** [get_pgns], the module global [PGN_DATABASE] being passed as
    [database]. *)
Definition get_pgns (database : list (Z * Pgn.t)) : list PgnItem.t :=
  let pgns :=
    map (fun entry : Z * Pgn.t =>
           let (pgn, data) := entry in
           {| PgnItem.pgn := pgn;
              PgnItem.hex := ("0x" ++ format_int 16 4 pgn)%string;
              PgnItem.name := Pgn.name data |})
        database in
  sorted PgnItem.pgn pgns.

(** An item of the list [get_spns] returns. *)
Module SpnItem.
Record t : Type := Build {
  spn : Z;
  name : string;
  unit : string;
  resolution : float;
  offset : float;
  length_bits : Z;
  start_byte : Z;
  start_bit : Z
}.
End SpnItem.

(** [PGN_DATABASE[pgn]], [None] when [pgn not in PGN_DATABASE]. *)
Fixpoint lookup_pgn (pgn : Z) (database : list (Z * Pgn.t)) : option Pgn.t :=
  match database with
  | [] => None
  | (key, data) :: tl => if pgn =? key then Some data else lookup_pgn pgn tl
  end.

Definition spn_item (entry : Z * Spn.t) : SpnItem.t :=
  let (spn_id, spn_data) := entry in
  {| SpnItem.spn := spn_id;
     SpnItem.name := Spn.name spn_data;
     SpnItem.unit := Spn.unit spn_data;
     SpnItem.resolution := Spn.resolution spn_data;
     SpnItem.offset := Spn.offset spn_data;
     SpnItem.length_bits := Spn.length_bits spn_data;
     SpnItem.start_byte := Spn.start_byte spn_data;
     SpnItem.start_bit := get (Spn.start_bit spn_data) 1 |}.

(** [get_spns(pgn)], the module global [PGN_DATABASE] being passed as
    [database]. *)
Definition get_spns (database : list (Z * Pgn.t)) (pgn : Z) : list SpnItem.t :=
  match lookup_pgn pgn database with
  | None => []
  | Some data => sorted SpnItem.spn (map spn_item (Pgn.spns data))
  end.

(** ** Notions the statements use *)

(** Bits [lo .. lo + width - 1] of an identifier, as a number. *)
Definition bit_field (x lo width : Z) : Z :=
  Z.land (Z.shiftr x lo) (Z.ones width).




(** A [float_from_string] for the examples, whose requests hold no string
    to convert: the answer of [float()] to a text that denotes no
    number. *)
Definition not_a_number (s : string) : result float :=
  Raise (ValueError ("could not convert string to float: '" ++ s ++ "'")).

(** Eight bytes. *)
Definition is_frame (data : list Z) : Prop :=
  List.length data = 8%nat /\ Forall (fun b => 0 <= b < 256) data.

(** Bit [k] of a frame, bit 0 being the least significant bit of the first
    byte. *)
Definition frame_bit (data : list Z) (k : Z) : bool :=
  Z.testbit (nth (Z.to_nat (k / 8)) data 0) (k mod 8).

(** Reading [n] bits back from absolute bit position [pos], the first bit
    read being the least significant one. *)
Fixpoint unpack_bits (data : list Z) (pos : Z) (n : nat) : Z :=
  match n with
  | O => 0
  | S n' =>
      unpack_bits data pos n'
      + (if frame_bit data (pos + Z.of_nat n') then 2 ^ Z.of_nat n' else 0)
  end.

(** The frame read as one unsigned integer, the first byte being the
    least significant ([int.from_bytes(data, "little")]). *)
Fixpoint le_int (data : list Z) : Z :=
  match data with
  | [] => 0
  | b :: tl => b + 256 * le_int tl
  end.

(** The value of a hexadecimal digit, in either case. *)
Definition hex_digit (c : ascii) : option Z :=
  let n := Z.of_nat (nat_of_ascii c) in
  if (48 <=? n) && (n <=? 57) then Some (n - 48)
  else if (65 <=? n) && (n <=? 70) then Some (n - 55)
  else if (97 <=? n) && (n <=? 102) then Some (n - 87)
  else None.

(** A digit as [str.upper()] leaves it: a decimal digit or [A] to [F]. *)
Definition is_upper_hex (c : ascii) : bool :=
  let n := Z.of_nat (nat_of_ascii c) in
  ((48 <=? n) && (n <=? 57)) || ((65 <=? n) && (n <=? 70)).

(** Reading a string of digits in base [base], most significant digit
    first, on top of the value [acc] read so far ([int(s, base)] on a
    string of digits). *)
Fixpoint digits_value (base : Z) (s : string) (acc : Z) : option Z :=
  match s with
  | EmptyString => Some acc
  | String c rest =>
      match hex_digit c with
      | Some d =>
          if d <? base then digits_value base rest (acc * base + d) else None
      | None => None
      end
  end.

(** Reading bytes from a string of hexadecimal digit pairs
    ([bytes.fromhex] on a string without blanks). *)
Fixpoint fromhex (s : string) : option (list Z) :=
  match s with
  | EmptyString => Some []
  | String _ EmptyString => None
  | String hi (String lo rest) =>
      match hex_digit hi, hex_digit lo, fromhex rest with
      | Some h, Some l, Some tl => Some (16 * h + l :: tl)
      | _, _, _ => None
      end
  end.

(** A byte is written as two upper-case digits that read back as the
    byte; a digit is written as a character that reads back as the digit
    (checked by evaluation over all bytes and all digits). *)
Definition byte_hex_ok (b : Z) : bool :=
  match format_int 16 2 b with
  | String hi (String lo EmptyString) =>
      match hex_digit hi, hex_digit lo with
      | Some h, Some l => (16 * h + l =? b) && is_upper_hex hi && is_upper_hex lo
      | _, _ => false
      end
  | _ => false
  end.

Definition digit_ok (d : Z) : bool :=
  match hex_digit (digit_char d) with
  | Some d' => (d' =? d) && is_upper_hex (digit_char d)
  | None => false
  end.

(** Every character of a string passes a test. *)
Fixpoint string_forallb (p : ascii -> bool) (s : string) : bool :=
  match s with
  | EmptyString => true
  | String c rest => p c && string_forallb p rest
  end.

(** * Properties *)

(** Closed goals are settled by evaluation, one conjunct after the other
    (so that a frame left open by [eexists] is filled by the evaluation
    of [encode_spn]). *)
Ltac run := vm_compute; reflexivity.
Ltac run_all := repeat (split; [run|]); try run.

(** ** The CAN identifier *)

Lemma testbit_above (b n i : Z) :
  0 <= b < 2 ^ n -> n <= i -> Z.testbit b i = false.
Proof.
  intros Hb Hi.
  destruct (Z.eq_dec b 0) as [->|Hb0]; [apply Z.bits_0|].
  apply Z.bits_above_log2; [lia|].
  assert (0 <= n).
  { destruct (Z.le_gt_cases 0 n); [assumption|].
    rewrite Z.pow_neg_r in Hb; lia. }
  assert (Z.log2 b < n) by (apply Z.log2_lt_pow2; lia).
  lia.
Qed.

Lemma lor_shiftl_add (a b n : Z) :
  0 <= n -> 0 <= b < 2 ^ n -> Z.lor (Z.shiftl a n) b = a * 2 ^ n + b.
Proof.
  intros Hn Hb.
  rewrite <- Z.shiftl_mul_pow2 by assumption.
  assert (Hd : Z.land (Z.shiftl a n) b = 0).
  { apply Z.bits_inj'. intros i Hi. rewrite Z.land_spec, Z.bits_0.
    destruct (Z.lt_ge_cases i n).
    - rewrite Z.shiftl_spec_low by assumption. reflexivity.
    - rewrite (testbit_above b n) by lia. apply andb_false_r. }
  rewrite <- Z.lxor_lor, <- Z.add_nocarry_lxor by assumption.
  reflexivity.
Qed.

Lemma land_byte (x : Z) : Z.land x 0xFF = x mod 2 ^ 8.
Proof. change 0xFF with (Z.ones 8). apply Z.land_ones. lia. Qed.

Lemma bit_field_div_mod (x lo width : Z) :
  0 <= lo -> 0 <= width -> bit_field x lo width = (x / 2 ^ lo) mod 2 ^ width.
Proof.
  intros Hlo Hw. unfold bit_field.
  rewrite Z.land_ones, Z.shiftr_div_pow2 by assumption. reflexivity.
Qed.

(** The identifier as a sum of its four fields. *)
Lemma calculate_can_id_sum (pgn source_address : Z) :
  J1939Encoder.calculate_can_id pgn source_address
  = 6 * 2 ^ 26
    + ((pgn / 2 ^ 8) mod 2 ^ 8) * 2 ^ 16
    + (if pgn <? 0xF000 then pgn mod 2 ^ 8 else 0xFF) * 2 ^ 8
    + source_address mod 2 ^ 8.
Proof.
  unfold J1939Encoder.calculate_can_id.
  set (ps := if pgn <? 0xF000 then pgn mod 2 ^ 8 else 0xFF).
  assert (Hps : 0 <= ps < 2 ^ 8).
  { unfold ps. destruct (pgn <? 0xF000); [apply Z.mod_pos_bound|]; lia. }
  assert (Hpf := Z.mod_pos_bound (pgn / 2 ^ 8) (2 ^ 8) ltac:(lia)).
  assert (Hsa := Z.mod_pos_bound source_address (2 ^ 8) ltac:(lia)).
  assert (Hfields :
    (let '(pdu_format, pdu_specific) :=
       if pgn <? 0xF000
       then (Z.land (Z.shiftr pgn 8) 0xFF, Z.land pgn 0xFF)
       else (Z.land (Z.shiftr pgn 8) 0xFF, 0xFF) in
     (Z.land pdu_format 0xFF, Z.land pdu_specific 0xFF))
    = ((pgn / 2 ^ 8) mod 2 ^ 8, ps)).
  { unfold ps. destruct (pgn <? 0xF000);
      rewrite ?land_byte, ?Z.shiftr_div_pow2, ?Z.mod_mod by lia; reflexivity. }
  destruct (if pgn <? 0xF000
            then (Z.land (Z.shiftr pgn 8) 0xFF, Z.land pgn 0xFF)
            else (Z.land (Z.shiftr pgn 8) 0xFF, 0xFF)) as [pdu_format pdu_specific].
  injection Hfields as -> ->.
  rewrite land_byte.
  change (Z.shiftl (Z.land 6 7) 26) with (Z.shiftl 6 26).
  change (Z.shiftl (Z.land 0 1) 25) with 0.
  change (Z.shiftl (Z.land 0 1) 24) with 0.
  rewrite !Z.lor_0_r, <- !Z.lor_assoc.
  rewrite (lor_shiftl_add ps) by lia.
  rewrite (lor_shiftl_add ((pgn / 2 ^ 8) mod 2 ^ 8)) by lia.
  rewrite (lor_shiftl_add 6) by lia.
  lia.
Qed.

(** C2. For every PGN and every source address (a byte),
    [calculate_can_id] returns a 29-bit identifier whose bits 26-28 are
    6, bits 24-25 are 0, bits 16-23 are the high byte of the PGN, bits
    8-15 are [0xFF] when [pgn >= 0xF000] and the low byte of the PGN
    otherwise, and bits 0-7 are the source address; PGN 61444 with source
    address 0 gives [0x18F0FF00]. *)
Theorem calculate_can_id_layout (pgn source_address : Z)
    (Hsa : 0 <= source_address <= 0xFF) :
  let can_id := J1939Encoder.calculate_can_id pgn source_address in
  0 <= can_id < 2 ^ 29
  /\ bit_field can_id 26 3 = 6
  /\ bit_field can_id 24 2 = 0
  /\ bit_field can_id 16 8 = Z.land (Z.shiftr pgn 8) 0xFF
  /\ bit_field can_id 8 8 = (if 0xF000 <=? pgn then 0xFF else Z.land pgn 0xFF)
  /\ bit_field can_id 0 8 = source_address
  /\ J1939Encoder.calculate_can_id 61444 0 = 0x18F0FF00.
Proof.
  intros can_id. subst can_id.
  rewrite !bit_field_div_mod, !land_byte, Z.shiftr_div_pow2 by lia.
  rewrite calculate_can_id_sum.
  replace (0xF000 <=? pgn) with (negb (pgn <? 0xF000))
    by (destruct (Z.ltb_spec pgn 0xF000), (Z.leb_spec 0xF000 pgn); simpl; lia).
  set (ps := if pgn <? 0xF000 then pgn mod 2 ^ 8 else 0xFF).
  assert (Hps : 0 <= ps < 2 ^ 8).
  { unfold ps. destruct (pgn <? 0xF000); [apply Z.mod_pos_bound|]; lia. }
  replace (if negb (pgn <? 0xF000) then 0xFF else pgn mod 2 ^ 8) with ps
    by (unfold ps; destruct (pgn <? 0xF000); reflexivity).
  assert (Hpf := Z.mod_pos_bound (pgn / 2 ^ 8) (2 ^ 8) ltac:(lia)).
  rewrite (Z.mod_small source_address) by lia.
  set (pf := (pgn / 2 ^ 8) mod 2 ^ 8) in *.
  change (2 ^ 0) with 1. change (2 ^ 29) with 536870912.
  change (2 ^ 26) with 67108864. change (2 ^ 24) with 16777216.
  change (2 ^ 16) with 65536. change (2 ^ 8) with 256 in *.
  change (2 ^ 3) with 8. change (2 ^ 2) with 4.
  repeat split; try reflexivity; try lia.
  all: Z.div_mod_to_equations; lia.
Qed.

(** The layout at PGN [0xFEF1] and source address [0x21]. *)
Lemma calculate_can_id_layout_witness :
  0 <= 0x21 <= 0xFF
  /\ bit_field (J1939Encoder.calculate_can_id 0xFEF1 0x21) 16 8 = 0xFE
  /\ bit_field (J1939Encoder.calculate_can_id 0xFEF1 0x21) 0 8 = 0x21.
Proof.
  assert (Hsa : 0 <= 0x21 <= 0xFF) by lia.
  split; [exact Hsa|].
  destruct (calculate_can_id_layout 0xFEF1 0x21 Hsa)
    as (_ & _ & _ & Hpf & _ & Hs & _).
  split; [exact Hpf | exact Hs].
Defined.

(** ** Rounding *)

Lemma round_half_even_error (q : Q) :
  2 * Z.abs (round_half_even q * Z.pos (Qden q) - Qnum q) <= Z.pos (Qden q).
Proof.
  unfold round_half_even.
  set (n := Qnum q). set (d := Z.pos (Qden q)).
  assert (Hd : 0 < d) by (unfold d; lia).
  pose proof (Z.div_mod n d ltac:(lia)) as Hdm.
  pose proof (Z.mod_pos_bound n d Hd) as Hr.
  destruct (Z.compare_spec (2 * (n mod d)) d) as [He|Hl|Hg];
    [destruct (Z.even (n / d))| |]; nia.
Qed.

Lemma round_half_even_near (q : Q) :
  (Qabs (inject_Z (round_half_even q) - q) <= 1 # 2)%Q.
Proof.
  pose proof (round_half_even_error q) as H.
  apply Qabs_Qle_condition.
  set (z := round_half_even q) in *. clearbody z.
  destruct q as [n d]. cbn [Qnum Qden] in H.
  unfold Qle, Qminus, Qplus, Qopp, inject_Z. cbn [Qnum Qden].
  lia.
Qed.


(** A tie goes to the even neighbour. *)
Lemma round_half_even_tie (q : Q) (n : Z) :
  (q == inject_Z n + (1 # 2))%Q ->
  round_half_even q = if Z.even n then n else n + 1.
Proof.
  intros Hq. unfold Qeq, Qplus, inject_Z in Hq. cbn [Qnum Qden] in Hq.
  unfold round_half_even.
  set (num := Qnum q) in *. set (d := Z.pos (Qden q)) in *.
  assert (Hd : 0 < d) by (unfold d; lia).
  assert (Hfl : num / d = n).
  { symmetry. apply (Z.div_unique_pos num d n (num - n * d)); lia. }
  assert (Hrem : num mod d = num - n * d).
  { symmetry. apply (Z.mod_unique_pos num d n (num - n * d)); lia. }
  rewrite Hfl, Hrem.
  replace (2 * (num - n * d) ?= d) with Eq
    by (symmetry; apply Z.compare_eq_iff; lia).
  reflexivity.
Qed.

Lemma py_round_finite (x : float) (q : Q) :
  float_value x = Some q -> py_round x = Ok (round_half_even q).
Proof.
  unfold float_value, py_round.
  destruct (Prim2SF x); intros H; try discriminate; injection H as <-;
    reflexivity.
Qed.

Lemma py_round_not_finite (x : float) :
  float_value x = None ->
  py_round x = Raise (ValueError "cannot convert float NaN to integer")
  \/ py_round x = Raise (OverflowError "cannot convert float infinity to integer").
Proof.
  unfold float_value, py_round.
  destruct (Prim2SF x); intros H; try discriminate; auto.
Qed.

(** ** [physical_to_raw] *)

Lemma physical_to_raw_nonzero (physical_value resolution offset : float) :
  (resolution =? 0)%float = false ->
  J1939Encoder.physical_to_raw physical_value resolution offset
  = raw <- py_round ((physical_value - offset) / resolution)%float ;;
    Ok (Z.max 0 raw).
Proof.
  intros Hres. unfold J1939Encoder.physical_to_raw. rewrite Hres. reflexivity.
Qed.

Lemma physical_to_raw_finite (physical_value resolution offset : float) (q : Q) :
  (resolution =? 0)%float = false ->
  float_value ((physical_value - offset) / resolution)%float = Some q ->
  J1939Encoder.physical_to_raw physical_value resolution offset
  = Ok (Z.max 0 (round_half_even q)).
Proof.
  intros Hres Hq.
  rewrite physical_to_raw_nonzero by assumption.
  rewrite (py_round_finite _ _ Hq). reflexivity.
Qed.

Lemma physical_to_raw_nonneg (physical_value resolution offset : float) (raw : Z) :
  J1939Encoder.physical_to_raw physical_value resolution offset = Ok raw ->
  0 <= raw.
Proof.
  unfold J1939Encoder.physical_to_raw.
  destruct (resolution =? 0)%float; [discriminate|].
  destruct (py_round _) as [n|e]; simpl; [|discriminate].
  intros H. injection H as <-. lia.
Qed.

(** C3, as the code has it. [physical_to_raw] raises the zero-resolution
    error if and only if [resolution == 0].  For a non-zero resolution it
    returns [max(0, round((value - offset) / resolution))] whenever the
    binary64 quotient is finite, a negative rounded value being floored
    to 0 without an error; when the quotient is NaN or an infinity the
    rounding raises [ValueError] or [OverflowError] instead. *)
Theorem physical_to_raw_cases (physical_value resolution offset : float) :
  (J1939Encoder.physical_to_raw physical_value resolution offset
     = Raise (ValueError "Resolution cannot be zero")
   <-> (resolution =? 0)%float = true)
  /\ ((resolution =? 0)%float = false ->
      match float_value ((physical_value - offset) / resolution)%float with
      | Some q =>
          J1939Encoder.physical_to_raw physical_value resolution offset
          = Ok (Z.max 0 (round_half_even q))
      | None =>
          J1939Encoder.physical_to_raw physical_value resolution offset
          = Raise (ValueError "cannot convert float NaN to integer")
          \/ J1939Encoder.physical_to_raw physical_value resolution offset
             = Raise (OverflowError "cannot convert float infinity to integer")
      end).
Proof.
  split.
  - split.
    + intros H. destruct (resolution =? 0)%float eqn:Hres; [reflexivity|].
      rewrite physical_to_raw_nonzero in H by assumption.
      destruct (float_value ((physical_value - offset) / resolution)%float)
        as [q|] eqn:Hq.
      * rewrite (py_round_finite _ _ Hq) in H. discriminate.
      * destruct (py_round_not_finite _ Hq) as [Hr|Hr]; rewrite Hr in H;
          discriminate.
    + intros Hres. unfold J1939Encoder.physical_to_raw. rewrite Hres.
      reflexivity.
  - intros Hres.
    destruct (float_value ((physical_value - offset) / resolution)%float)
      as [q|] eqn:Hq.
    + apply physical_to_raw_finite; assumption.
    + rewrite physical_to_raw_nonzero by assumption.
      destruct (py_round_not_finite _ Hq) as [Hr|Hr]; rewrite Hr; auto.
Qed.

(** With the resolution of [engine_speed], a finite physical value near
    the top of the binary64 range makes the quotient overflow, and
    [physical_to_raw] fails although the resolution is not zero. *)
Lemma physical_to_raw_overflow :
  (0.125 =? 0)%float = false
  /\ float_value 0x1p1023%float = Some (inject_Z (2 ^ 1023))
  /\ J1939Encoder.physical_to_raw 0x1p1023 0.125 0
     = Raise (OverflowError "cannot convert float infinity to integer").
Proof. run_all. Qed.

(** C10, as the code has it. When the binary64 quotient
    [(value - offset) / resolution] is exactly halfway between the
    integers [n] and [n + 1], the rounded value is the even one of the
    two, and [physical_to_raw] returns it when it is not negative and 0
    otherwise; a quotient of 0.5 gives 0 and a quotient of 1.5 gives 2. *)
Theorem physical_to_raw_ties_to_even
    (physical_value resolution offset : float) (q : Q) (n : Z)
    (Hres : (resolution =? 0)%float = false)
    (Hq : float_value ((physical_value - offset) / resolution)%float = Some q)
    (Htie : (q == inject_Z n + (1 # 2))%Q) :
  J1939Encoder.physical_to_raw physical_value resolution offset
  = Ok (Z.max 0 (if Z.even n then n else n + 1))
  /\ J1939Encoder.physical_to_raw 0.5 1 0 = Ok 0
  /\ J1939Encoder.physical_to_raw 1.5 1 0 = Ok 2.
Proof.
  split; [|run_all].
  rewrite (physical_to_raw_finite _ _ _ q Hres Hq).
  rewrite (round_half_even_tie q n Htie). reflexivity.
Qed.

(** A quotient of 2.5 gives 2. *)
Lemma physical_to_raw_ties_to_even_witness :
  (1 =? 0)%float = false
  /\ float_value ((2.5 - 0) / 1)%float = Some (5 # 2)
  /\ (5 # 2 == inject_Z 2 + (1 # 2))%Q
  /\ J1939Encoder.physical_to_raw 2.5 1 0 = Ok 2.
Proof.
  assert (Hres : (1 =? 0)%float = false) by reflexivity.
  assert (Hq : float_value ((2.5 - 0) / 1)%float = Some (5 # 2))
    by (vm_compute; reflexivity).
  assert (Htie : (5 # 2 == inject_Z 2 + (1 # 2))%Q) by reflexivity.
  split; [exact Hres|]. split; [exact Hq|]. split; [exact Htie|].
  exact (proj1 (physical_to_raw_ties_to_even 2.5 1 0 (5 # 2) 2 Hres Hq Htie)).
Defined.

(** A quotient of -1.5 lies halfway between -2 and -1; the even neighbour
    is -2, and [physical_to_raw] returns 0. *)
Lemma physical_to_raw_negative_tie :
  (1 =? 0)%float = false
  /\ float_value ((-1.5 - 0) / 1)%float = Some (-3 # 2)
  /\ (-3 # 2 == inject_Z (-2) + (1 # 2))%Q
  /\ Z.even (-2) = true
  /\ J1939Encoder.physical_to_raw (-1.5) 1 0 = Ok 0
  /\ J1939Encoder.physical_to_raw (-1.5) 1 0 <> Ok (-2).
Proof.
  run_all.
  vm_compute. discriminate.
Qed.

(** ** Reconstruction of the physical value *)



(** With an exact quotient, a physical value not below the offset has a
    quotient that is not negative. *)
Lemma exact_quotient_nonneg (qv qr qo qq : Q) :
  (0 < qr)%Q -> (qo <= qv)%Q -> (qq * qr + qo == qv)%Q -> (0 <= qq)%Q.
Proof.
  intros Hpos Hmin Hexact.
  assert (Hprod : (0 <= qq * qr)%Q) by lra.
  destruct (Qlt_le_dec qq 0) as [Hneg|]; [|assumption].
  assert (Hcontra : (0 <= (0 - qq) * qr)%Q)
    by (apply Qmult_le_0_compat; lra).
  assert (Hz : (qq * qr == 0)%Q) by lra.
  apply Qmult_integral in Hz. destruct Hz; lra.
Qed.

(** In [LIVE_SIGNALS] the lower end of the physical range is the offset. *)
Lemma live_signals_min_physical (signal_id : string) (config : Config.t) :
  lookup signal_id LIVE_SIGNALS = Some config ->
  Config.min_physical config = Config.offset config.
Proof.
  unfold LIVE_SIGNALS. cbn [lookup].
  repeat (destruct (String.eqb signal_id _);
          [intros H; injection H as <-; reflexivity|]).
  discriminate.
Qed.




(** ** Packing *)

Lemma update_length (data : list Z) (k : nat) (v : Z) :
  List.length (update data k v) = List.length data.
Proof.
  revert k. induction data as [|hd tl IH]; intros [|k]; simpl; auto.
Qed.

Lemma update_Forall (P : Z -> Prop) (data : list Z) (k : nat) (v : Z) :
  Forall P data -> P v -> Forall P (update data k v).
Proof.
  intros Hdata Hv. revert k.
  induction Hdata as [|hd tl Hhd Htl IH]; intros [|k]; simpl; auto.
Qed.

Lemma nth_update_same (data : list Z) (k : nat) (v : Z) :
  (k < List.length data)%nat -> nth k (update data k v) 0 = v.
Proof.
  revert k. induction data as [|hd tl IH]; intros [|k] Hk; simpl in *;
    try lia; auto.
  apply IH. lia.
Qed.

Lemma nth_update_other (data : list Z) (k j : nat) (v : Z) :
  k <> j -> nth j (update data k v) 0 = nth j data 0.
Proof.
  revert k j. induction data as [|hd tl IH]; intros [|k] [|j] Hkj; simpl;
    try congruence; auto.
Qed.

Lemma index_of_in_range (data : list Z) (i : Z) :
  0 <= i < Z.of_nat (List.length data) -> index_of data i = Ok (Z.to_nat i).
Proof.
  intros Hi. unfold index_of.
  destruct (Z.leb_spec 0 i), (Z.ltb_spec i (Z.of_nat (List.length data)));
    simpl; try lia; reflexivity.
Qed.

Lemma bit_value_testbit (raw i : Z) :
  0 <= i -> (Z.land (Z.shiftr raw i) 0x01 =? 0) = negb (Z.testbit raw i).
Proof.
  intros Hi.
  replace (Z.testbit raw i) with (Z.testbit (Z.shiftr raw i) 0)
    by (rewrite Z.shiftr_spec by lia; f_equal).
  change 0x01 with (Z.ones 1). rewrite Z.land_ones by lia.
  change (2 ^ 1) with 2. rewrite <- Z.bit0_mod.
  destruct (Z.testbit (Z.shiftr raw i) 0); reflexivity.
Qed.

Lemma set_bit_spec (old bit j : Z) :
  0 <= bit -> 0 <= j ->
  Z.testbit (Z.lor old (Z.shiftl 1 bit)) j
  = if j =? bit then true else Z.testbit old j.
Proof.
  intros Hbit Hj.
  rewrite Z.lor_spec, Z.shiftl_1_l, Z.pow2_bits_eqb by assumption.
  rewrite (Z.eqb_sym bit j).
  destruct (j =? bit); [apply orb_true_r|apply orb_false_r].
Qed.

Lemma clear_bit_spec (old bit j : Z) :
  0 <= bit -> 0 <= j ->
  Z.testbit (Z.land old (Z.lnot (Z.shiftl 1 bit))) j
  = if j =? bit then false else Z.testbit old j.
Proof.
  intros Hbit Hj.
  rewrite Z.land_spec, Z.lnot_spec, Z.shiftl_1_l, Z.pow2_bits_eqb by assumption.
  rewrite (Z.eqb_sym bit j).
  destruct (j =? bit); [apply andb_false_r|apply andb_true_r].
Qed.

Lemma byte_of_bits (x : Z) :
  0 <= x -> (forall j, 8 <= j -> Z.testbit x j = false) -> 0 <= x < 256.
Proof.
  intros Hx Hhi.
  assert (Hmod : x = x mod 2 ^ 8).
  { apply Z.bits_inj'. intros j Hj.
    rewrite Z.testbit_mod_pow2 by lia.
    destruct (Z.ltb_spec j 8); simpl; [reflexivity|auto]. }
  rewrite Hmod. apply Z.mod_pos_bound. lia.
Qed.

Lemma byte_bits_high (x j : Z) :
  0 <= x < 256 -> 8 <= j -> Z.testbit x j = false.
Proof. intros Hx Hj. apply (testbit_above x 8); assumption. Qed.

(** A frame under construction: eight bytes. *)
Lemma frame_bit_update (data : list Z) (c : nat) (new : Z) (bit k : Z) (b : bool) :
  (c < List.length data)%nat ->
  0 <= bit < 8 -> 0 <= k ->
  (forall j, 0 <= j ->
     Z.testbit new j = if j =? bit then b else Z.testbit (nth c data 0) j) ->
  frame_bit (update data c new) k
  = if k =? 8 * Z.of_nat c + bit then b else frame_bit data k.
Proof.
  intros Hc Hbit Hk Hnew. unfold frame_bit.
  assert (Hk8 : 0 <= k mod 8 < 8) by (apply Z.mod_pos_bound; lia).
  pose proof (Z.div_mod k 8 ltac:(lia)) as Hdm.
  assert (Hkd : 0 <= k / 8) by (apply Z.div_pos; lia).
  destruct (Nat.eq_dec (Z.to_nat (k / 8)) c) as [Heq|Hne].
  - rewrite Heq, nth_update_same, Hnew by lia.
    destruct (Z.eqb_spec (k mod 8) bit), (Z.eqb_spec k (8 * Z.of_nat c + bit));
      try reflexivity; lia.
  - rewrite nth_update_other by congruence.
    destruct (Z.eqb_spec k (8 * Z.of_nat c + bit)) as [Hkc|]; [|reflexivity].
    exfalso. apply Hne.
    assert (k / 8 = Z.of_nat c)
      by (symmetry; apply (Z.div_unique_pos k 8 (Z.of_nat c) bit); lia).
    lia.
Qed.

Lemma encode_bit_spec (raw byte_idx bit_idx : Z) (data : list Z) (i : Z) :
  is_frame data ->
  0 <= byte_idx -> 0 <= bit_idx -> 0 <= i ->
  8 * byte_idx + bit_idx + i < 64 ->
  exists data',
    J1939Encoder.encode_bit raw byte_idx bit_idx data i = Ok data'
    /\ is_frame data'
    /\ forall k, 0 <= k ->
         frame_bit data' k
         = if k =? 8 * byte_idx + bit_idx + i then Z.testbit raw i
           else frame_bit data k.
Proof.
  intros [Hlen Hbytes] Hbyte Hbit Hi Hfit.
  unfold J1939Encoder.encode_bit.
  set (cb := byte_idx + (bit_idx + i) / 8).
  set (bit := (bit_idx + i) mod 8).
  assert (Hb8 : 0 <= bit < 8) by (apply Z.mod_pos_bound; lia).
  pose proof (Z.div_mod (bit_idx + i) 8 ltac:(lia)) as Hdm. fold bit in Hdm.
  assert (Hq : 0 <= (bit_idx + i) / 8) by (apply Z.div_pos; lia).
  assert (Hcb : 0 <= cb < 8) by (unfold cb; lia).
  assert (Hpos : 8 * byte_idx + bit_idx + i = 8 * Z.of_nat (Z.to_nat cb) + bit)
    by (unfold cb; lia).
  unfold getitem, setitem.
  rewrite index_of_in_range by (rewrite Hlen; lia).
  cbn [bind].
  set (old := nth (Z.to_nat cb) data 0).
  assert (Hold : 0 <= old < 256).
  { unfold old. rewrite Forall_forall in Hbytes.
    apply Hbytes, nth_In. lia. }
  rewrite bit_value_testbit by assumption.
  set (new := if negb (Z.testbit raw i)
              then Z.land old (Z.lnot (Z.shiftl 1 bit))
              else Z.lor old (Z.shiftl 1 bit)).
  assert (Hnew : forall j, 0 <= j ->
            Z.testbit new j = if j =? bit then Z.testbit raw i
                              else Z.testbit old j).
  { intros j Hj. unfold new. destruct (Z.testbit raw i); simpl.
    - apply set_bit_spec; lia.
    - apply clear_bit_spec; lia. }
  assert (Hrange : 0 <= new < 256).
  { apply byte_of_bits.
    - unfold new. destruct (negb (Z.testbit raw i)).
      + apply Z.land_nonneg. left. lia.
      + apply Z.lor_nonneg. split; [lia|].
        rewrite Z.shiftl_1_l. apply Z.pow_nonneg. lia.
    - intros j Hj. rewrite Hnew by lia.
      destruct (Z.eqb_spec j bit); [lia|].
      apply byte_bits_high; assumption. }
  exists (update data (Z.to_nat cb) new).
  split; [|split; [split|]].
  - destruct (negb (Z.testbit raw i)); fold old; fold new;
      destruct (Z.leb_spec 0 new), (Z.ltb_spec new 256); simpl;
      try lia; reflexivity.
  - rewrite update_length. assumption.
  - apply update_Forall; assumption.
  - intros k Hk. rewrite Hpos.
    apply frame_bit_update; try assumption; lia.
Qed.

(** The loop over the bit indices [a, a + n). *)
Lemma encode_loop_spec (raw byte_idx bit_idx : Z) (n a : nat) (data : list Z) :
  is_frame data ->
  0 <= byte_idx -> 0 <= bit_idx ->
  8 * byte_idx + bit_idx + Z.of_nat a + Z.of_nat n <= 64 ->
  exists data',
    J1939Encoder.encode_loop raw byte_idx bit_idx data
      (map Z.of_nat (seq a n)) = Ok data'
    /\ is_frame data'
    /\ forall k, 0 <= k ->
         frame_bit data' k
         = if (8 * byte_idx + bit_idx + Z.of_nat a <=? k)
              && (k <? 8 * byte_idx + bit_idx + Z.of_nat a + Z.of_nat n)
           then Z.testbit raw (k - (8 * byte_idx + bit_idx))
           else frame_bit data k.
Proof.
  revert a data.
  induction n as [|n IH]; intros a data Hdata Hbyte Hbit Hfit.
  - exists data. split; [reflexivity|]. split; [assumption|].
    intros k Hk.
    destruct (Z.leb_spec (8 * byte_idx + bit_idx + Z.of_nat a) k),
             (Z.ltb_spec k (8 * byte_idx + bit_idx + Z.of_nat a + Z.of_nat 0));
      simpl; try reflexivity; lia.
  - cbn [seq map J1939Encoder.encode_loop].
    destruct (encode_bit_spec raw byte_idx bit_idx data (Z.of_nat a))
      as (data1 & Hstep & Hdata1 & Hbits1); try assumption; try lia.
    rewrite Hstep. cbn [bind].
    destruct (IH (S a) data1) as (data2 & Hloop & Hdata2 & Hbits2);
      try assumption; try lia.
    exists data2. split; [exact Hloop|]. split; [assumption|].
    intros k Hk. rewrite Hbits2, Hbits1 by assumption.
    set (pos := 8 * byte_idx + bit_idx) in *.
    destruct (Z.leb_spec (pos + Z.of_nat (S a)) k),
             (Z.ltb_spec k (pos + Z.of_nat (S a) + Z.of_nat n)),
             (Z.leb_spec (pos + Z.of_nat a) k),
             (Z.ltb_spec k (pos + Z.of_nat a + Z.of_nat (S n))),
             (Z.eqb_spec k (pos + Z.of_nat a));
      simpl; try reflexivity; try lia.
    f_equal. lia.
Qed.

Lemma frame_bit_zero (k : Z) : frame_bit (repeat 0 8) k = false.
Proof.
  unfold frame_bit.
  replace (nth (Z.to_nat (k / 8)) (repeat 0 8) 0) with 0;
    [apply Z.testbit_0_l|].
  symmetry. apply nth_repeat.
Qed.

Lemma is_frame_zero : is_frame (repeat 0 8).
Proof.
  split; [reflexivity|]. apply Forall_forall. intros b Hb.
  apply repeat_spec in Hb. lia.
Qed.

(** The saturation step of [encode_value]. *)
Lemma saturate_min (raw_value length_bits : Z) :
  0 <= length_bits ->
  (if raw_value >? Z.shiftl 1 length_bits - 1
   then Z.shiftl 1 length_bits - 1 else raw_value)
  = Z.min raw_value (2 ^ length_bits - 1).
Proof.
  intros Hlen. rewrite Z.shiftl_1_l.
  destruct (Z.gtb_spec raw_value (2 ^ length_bits - 1)); lia.
Qed.

(** What [encode_value] returns when the bit span lies in the frame. *)
Lemma encode_value_spec (raw_value start_byte start_bit length_bits : Z) :
  1 <= start_byte -> 1 <= start_bit -> 0 <= length_bits ->
  (start_byte - 1) * 8 + (start_bit - 1) + length_bits <= 64 ->
  exists data,
    J1939Encoder.encode_value raw_value start_byte start_bit length_bits
    = Ok data
    /\ is_frame data
    /\ forall k, 0 <= k ->
         frame_bit data k
         = ((start_byte - 1) * 8 + (start_bit - 1) <=? k)
           && (k <? (start_byte - 1) * 8 + (start_bit - 1) + length_bits)
           && Z.testbit (Z.min raw_value (2 ^ length_bits - 1))
                (k - ((start_byte - 1) * 8 + (start_bit - 1))).
Proof.
  intros Hbyte Hbit Hlen Hfit.
  unfold J1939Encoder.encode_value, range.
  destruct (Z.ltb_spec length_bits 0); [lia|].
  rewrite saturate_min by assumption.
  destruct (encode_loop_spec (Z.min raw_value (2 ^ length_bits - 1))
              (start_byte - 1) (start_bit - 1) (Z.to_nat length_bits) 0
              (repeat 0 8))
    as (data & Hloop & Hdata & Hbits);
    try apply is_frame_zero; try lia.
  exists data. split; [exact Hloop|]. split; [assumption|].
  intros k Hk. rewrite Hbits by assumption.
  rewrite frame_bit_zero.
  replace (8 * (start_byte - 1) + (start_bit - 1) + Z.of_nat 0)
    with ((start_byte - 1) * 8 + (start_bit - 1)) by lia.
  replace (8 * (start_byte - 1) + (start_bit - 1))
    with ((start_byte - 1) * 8 + (start_bit - 1)) by lia.
  rewrite Z2Nat.id by assumption.
  destruct (_ && _); reflexivity.
Qed.

Lemma unpack_bits_mod (data : list Z) (pos x : Z) (n : nat) :
  (forall i, 0 <= i < Z.of_nat n -> frame_bit data (pos + i) = Z.testbit x i) ->
  unpack_bits data pos n = x mod 2 ^ Z.of_nat n.
Proof.
  induction n as [|n IH]; intros Hbits.
  - simpl. rewrite Z.mod_1_r. reflexivity.
  - cbn [unpack_bits]. rewrite IH by (intros i Hi; apply Hbits; lia).
    rewrite Hbits by lia.
    rewrite Nat2Z.inj_succ, Z.pow_succ_r by lia.
    rewrite (Z.mul_comm 2), Z.rem_mul_r by lia.
    rewrite <- Z.testbit_spec' by lia.
    destruct (Z.testbit x (Z.of_nat n)); simpl; lia.
Qed.

Lemma encode_value_unpack (raw_value start_byte start_bit length_bits : Z) :
  0 <= raw_value -> 0 <= length_bits ->
  1 <= start_byte -> 1 <= start_bit ->
  (start_byte - 1) * 8 + (start_bit - 1) + length_bits <= 64 ->
  exists data,
    J1939Encoder.encode_value raw_value start_byte start_bit length_bits
    = Ok data
    /\ unpack_bits data ((start_byte - 1) * 8 + (start_bit - 1))
         (Z.to_nat length_bits)
       = Z.min raw_value (2 ^ length_bits - 1).
Proof.
  intros Hraw Hlen Hbyte Hbit Hfit.
  destruct (encode_value_spec raw_value start_byte start_bit length_bits)
    as (data & Henc & _ & Hbits); try lia.
  exists data. split; [exact Henc|].
  set (pos := (start_byte - 1) * 8 + (start_bit - 1)) in *.
  rewrite (unpack_bits_mod data pos (Z.min raw_value (2 ^ length_bits - 1))).
  - rewrite Z2Nat.id by lia. apply Z.mod_small.
    assert (0 < 2 ^ length_bits) by (apply Z.pow_pos_nonneg; lia). lia.
  - intros i Hi. rewrite Z2Nat.id in Hi by lia.
    rewrite Hbits by lia.
    replace (pos + i - pos) with i by lia.
    destruct (Z.leb_spec pos (pos + i)), (Z.ltb_spec (pos + i) (pos + length_bits));
      simpl; try reflexivity; lia.
Qed.

(** C4. For every width from 1 to 64, every start byte and start bit
    whose bit span fits in the eight bytes and every raw value (an
    unsigned integer), reading [length_bits] bits back from absolute bit
    position [(start_byte - 1) * 8 + (start_bit - 1)] of the packed frame,
    least significant bit first, gives the saturated raw value. *)
Theorem pack_unpack_roundtrip (raw_value start_byte start_bit length_bits : Z)
    (Hraw : 0 <= raw_value)
    (Hlen : 1 <= length_bits <= 64)
    (Hbyte : 1 <= start_byte)
    (Hbit : 1 <= start_bit <= 8)
    (Hfit : (start_byte - 1) * 8 + (start_bit - 1) + length_bits <= 64) :
  exists data,
    J1939Encoder.encode_value raw_value start_byte start_bit length_bits
    = Ok data
    /\ unpack_bits data ((start_byte - 1) * 8 + (start_bit - 1))
         (Z.to_nat length_bits)
       = Z.min raw_value (2 ^ length_bits - 1).
Proof. apply encode_value_unpack; lia. Qed.

(** A 12-bit field at byte 2, bit 5, given a raw value that does not fit. *)
Lemma pack_unpack_roundtrip_witness :
  exists data,
    J1939Encoder.encode_value 5000 2 5 12 = Ok data
    /\ unpack_bits data ((2 - 1) * 8 + (5 - 1)) (Z.to_nat 12)
       = Z.min 5000 (2 ^ 12 - 1).
Proof.
  apply (pack_unpack_roundtrip 5000 2 5 12); lia.
Defined.

(** C5. [encode_value] saturates the raw value to
    [min(raw, 2^length_bits - 1)] without an error and writes its bits,
    least significant first, from absolute bit position
    [(start_byte - 1) * 8 + (start_bit - 1)]; every other bit of the
    eight bytes it returns is zero.  For [engine_speed] (start byte 4,
    start bit 1, 16 bits) the physical value 1000 has raw value 8000
    ([0x1F40]) and the frame is [00 00 00 40 1F 00 00 00]. *)
Theorem encode_value_layout (raw_value start_byte start_bit length_bits : Z)
    (Hbyte : 1 <= start_byte)
    (Hbit : 1 <= start_bit <= 8)
    (Hlen : 1 <= length_bits <= 64)
    (Hfit : (start_byte - 1) * 8 + (start_bit - 1) + length_bits <= 64) :
  (exists data,
     J1939Encoder.encode_value raw_value start_byte start_bit length_bits
     = Ok data
     /\ is_frame data
     /\ forall k, 0 <= k < 64 ->
          frame_bit data k
          = ((start_byte - 1) * 8 + (start_bit - 1) <=? k)
            && (k <? (start_byte - 1) * 8 + (start_bit - 1) + length_bits)
            && Z.testbit (Z.min raw_value (2 ^ length_bits - 1))
                 (k - ((start_byte - 1) * 8 + (start_bit - 1))))
  /\ (exists config frame,
        lookup "engine_speed" LIVE_SIGNALS = Some config
        /\ Config.start_byte config = Some 4
        /\ Config.start_bit config = Some 1
        /\ Config.length_bits config = Some 16
        /\ J1939Encoder.encode_spn 1000 config = Ok frame
        /\ Frame.raw_value frame = 8000
        /\ Frame.raw_hex frame = "0x1F40"%string
        /\ Frame.data_array frame = [0x00; 0x00; 0x00; 0x40; 0x1F; 0x00; 0x00; 0x00]
        /\ Frame.data_bytes frame = "000000401F000000"%string)
  /\ J1939Encoder.physical_to_raw 1000 0.125 0 = Ok 8000
  /\ J1939Encoder.encode_value 8000 4 1 16
     = Ok [0x00; 0x00; 0x00; 0x40; 0x1F; 0x00; 0x00; 0x00].
Proof.
  split; [|split; [|split]].
  - destruct (encode_value_spec raw_value start_byte start_bit length_bits)
      as (data & Henc & Hdata & Hbits); try lia.
    exists data. split; [exact Henc|]. split; [exact Hdata|].
    intros k Hk. apply Hbits. lia.
  - eexists. eexists. run_all.
  - run.
  - run.
Qed.

(** The layout of a 12-bit field at byte 2, bit 5. *)
Lemma encode_value_layout_witness :
  exists data,
    J1939Encoder.encode_value 5000 2 5 12 = Ok data
    /\ is_frame data
    /\ forall k, 0 <= k < 64 ->
         frame_bit data k
         = ((2 - 1) * 8 + (5 - 1) <=? k)
           && (k <? (2 - 1) * 8 + (5 - 1) + 12)
           && Z.testbit (Z.min 5000 (2 ^ 12 - 1)) (k - ((2 - 1) * 8 + (5 - 1))).
Proof.
  apply (encode_value_layout 5000 2 5 12); lia.
Defined.

(** ** [encode_spn] *)



(** What a returned frame says about its parts. *)
Lemma encode_spn_inv (physical_value : float) (spn_config : Config.t)
    (frame : Frame.t) :
  J1939Encoder.encode_spn physical_value spn_config = Ok frame ->
  J1939Encoder.physical_to_raw physical_value
    (get (Config.resolution spn_config) 1%float)
    (get (Config.offset spn_config) 0%float)
  = Ok (Frame.raw_value frame)
  /\ J1939Encoder.encode_value (Frame.raw_value frame)
       (get (Config.start_byte spn_config) 1)
       (get (Config.start_bit spn_config) 1)
       (get (Config.length_bits spn_config) 8)
     = Ok (Frame.data_array frame).
Proof.
  unfold J1939Encoder.encode_spn.
  destruct (J1939Encoder.physical_to_raw _ _ _) as [raw|e] eqn:Hraw;
    [|discriminate].
  cbn [bind].
  destruct (J1939Encoder.encode_value raw _ _ _) as [data|e] eqn:Hdata;
    [|discriminate].
  cbn [bind]. intros H. injection H as <-.
  cbn [Frame.raw_value Frame.data_array].
  split; [reflexivity|exact Hdata].
Qed.




(** ** The [/api/encode] route *)

(** The route on a body that is a [dict]: what is left is the conversion
    of [physical_value], the membership test and the encoder. *)
Lemma encode_value_object (float_from_string : string -> result float)
    (members : list (string * pyval)) :
  encode_value float_from_string (Ok (JObject members))
  = match
      (physical_value <-
         py_float float_from_string
           (get (item "physical_value" members) (JInt 0)) ;;
       known <- live_signal (get (item "signal_id" members) JNull) ;;
       match known with
       | None => Ok (Error "Invalid signal ID", 400)
       | Some config =>
           result <- J1939Encoder.encode_spn physical_value config ;;
           Ok (Encoded result, 200)
       end)
    with
    | Ok r => r
    | Raise e => (Error (str e), 500)
    end.
Proof. reflexivity. Qed.







Lemma live_signals_encode_zero (signal_id : string) (config : Config.t) :
  lookup signal_id LIVE_SIGNALS = Some config ->
  exists frame,
    J1939Encoder.encode_spn 0 config = Ok frame
    /\ Frame.physical_value frame = 0%float.
Proof.
  unfold LIVE_SIGNALS. cbn [lookup].
  repeat (destruct (String.eqb signal_id _);
          [intros H; injection H as <-; eexists; split; vm_compute; reflexivity|]).
  discriminate.
Qed.

(** C9. A request for a live signal that omits [physical_value] is not
    rejected: 0 is substituted, the physical value 0.0 is encoded for
    that signal and the frame is returned with status 200. *)
Theorem encode_value_default_physical_value
    (float_from_string : string -> result float)
    (members : list (string * pyval)) (signal_id : string) (config : Config.t)
    (Hsignal : item "signal_id" members = Some (JString signal_id))
    (Hmissing : item "physical_value" members = None)
    (Hid : lookup signal_id LIVE_SIGNALS = Some config) :
  exists frame,
    encode_value float_from_string (Ok (JObject members)) = (Encoded frame, 200)
    /\ J1939Encoder.encode_spn 0 config = Ok frame
    /\ Frame.physical_value frame = 0%float.
Proof.
  destruct (live_signals_encode_zero signal_id config Hid)
    as (frame & Hframe & Hzero).
  exists frame. split; [|split; assumption].
  rewrite encode_value_object, Hsignal, Hmissing.
  cbn [get py_float live_signal]. unfold int_to_float.
  change (float_of_int 0) with 0%float.
  change (Prim2SF 0) with (S754_zero false). cbn [bind].
  rewrite Hid, Hframe. reflexivity.
Qed.

(** [cab_temperature] without a physical value: 0 degrees, raw 8736. *)
Lemma encode_value_default_physical_value_witness :
  exists frame,
    encode_value not_a_number
      (Ok (JObject [("signal_id"%string, JString "cab_temperature")]))
    = (Encoded frame, 200)
    /\ Frame.physical_value frame = 0%float
    /\ Frame.raw_value frame = 8736.
Proof.
  destruct (encode_value_default_physical_value not_a_number
              [("signal_id"%string, JString "cab_temperature")]
              "cab_temperature"
              (signal 65269 170 "Cab Temperature" 0.03125 (-273) "°C" 1000
                 (-273) 1735 2 1 16) eq_refl eq_refl eq_refl)
    as (frame & Hroute & Hframe & Hzero).
  exists frame. split; [exact Hroute|]. split; [exact Hzero|].
  vm_compute in Hframe. injection Hframe as <-. reflexivity.
Defined.

(** ** The live simulation flag *)

(** While the flag is set a worker that reaches the head of its loop goes
    on; once the flag is cleared it returns there. *)
Lemma worker_loop_head_active (thread : nat) (s : Sim.t) :
  Sim.live_simulation_active s = true -> worker_loop_head thread s = s.
Proof. intros Hs. unfold worker_loop_head. rewrite Hs. reflexivity. Qed.

Lemma worker_loop_head_idle (thread : nat) (s : Sim.t) :
  Sim.live_simulation_active s = false ->
  ~ In thread (Sim.workers (worker_loop_head thread s)).
Proof.
  intros Hs. unfold worker_loop_head. rewrite Hs. cbn [Sim.workers].
  rewrite filter_In. intros [_ Hne].
  rewrite Nat.eqb_refl in Hne. discriminate.
Qed.

(** C8. [start_live_simulation] does nothing when the simulation is
    already active: the state is unchanged and no worker is started, so
    two calls in a row start exactly one worker; and
    [stop_live_simulation] on an idle simulation leaves it idle, with the
    same workers (it only emits the status event). *)
Theorem start_stop_run_state :
  (forall s, Sim.live_simulation_active s = true ->
     start_live_simulation s = s)
  /\ (forall s, Sim.live_simulation_active s = false ->
        start_live_simulation (start_live_simulation s)
        = start_live_simulation s
        /\ Sim.live_simulation_active (start_live_simulation s) = true
        /\ Sim.workers (start_live_simulation (start_live_simulation s))
           = Sim.workers s ++ [Sim.created s]
        /\ Sim.created (start_live_simulation (start_live_simulation s))
           = S (Sim.created s))
  /\ Sim.workers (start_live_simulation (start_live_simulation initial))
     = [0%nat]
  /\ (forall s, Sim.live_simulation_active s = false ->
        Sim.live_simulation_active (stop_live_simulation s) = false
        /\ Sim.live_simulation_thread (stop_live_simulation s)
           = Sim.live_simulation_thread s
        /\ Sim.workers (stop_live_simulation s) = Sim.workers s
        /\ Sim.created (stop_live_simulation s) = Sim.created s
        /\ Sim.emitted (stop_live_simulation s)
           = Sim.emitted s ++ [simulation_status false]).
Proof.
  split; [|split; [|split]].
  - intros s Hs. unfold start_live_simulation. rewrite Hs. reflexivity.
  - intros s Hs.
    assert (Hstart : start_live_simulation s
              = {| Sim.live_simulation_active := true;
                   Sim.live_simulation_thread := Some (Sim.created s);
                   Sim.created := S (Sim.created s);
                   Sim.workers := Sim.workers s ++ [Sim.created s];
                   Sim.emitted := Sim.emitted s ++ [simulation_status true] |})
      by (unfold start_live_simulation; rewrite Hs; reflexivity).
    rewrite Hstart. repeat split.
  - reflexivity.
  - intros s Hs. repeat split.
Qed.

(** Started from the initial state and started again: one worker; stopped
    at once in the initial state: still idle, no worker. *)
Lemma start_stop_run_state_witness :
  start_live_simulation (start_live_simulation initial)
  = start_live_simulation initial
  /\ Sim.workers (start_live_simulation initial) = [0%nat]
  /\ Sim.live_simulation_active (stop_live_simulation initial) = false
  /\ Sim.workers (stop_live_simulation initial) = [].
Proof.
  destruct start_stop_run_state as (Hidem & _ & _ & Hstop).
  split; [apply Hidem; reflexivity|].
  split; [reflexivity|].
  destruct (Hstop initial eq_refl) as (Hflag & _ & Hworkers & _).
  split; [exact Hflag|exact Hworkers].
Defined.

(** * Further properties of the encoder *)

(** ** The identifier and the PGN *)

(** X1. Below [0xF000] the PGN and the source address can be read back
    from the identifier (bits 8-23 and bits 0-7), so that two distinct
    PGN and source address pairs never share an identifier. *)
Theorem calculate_can_id_pgn_recoverable (pgn source_address : Z)
    (Hpgn : 0 <= pgn < 0xF000)
    (Hsa : 0 <= source_address <= 0xFF) :
  bit_field (J1939Encoder.calculate_can_id pgn source_address) 8 16 = pgn
  /\ bit_field (J1939Encoder.calculate_can_id pgn source_address) 0 8
     = source_address
  /\ forall pgn' source_address',
       0 <= pgn' < 0xF000 -> 0 <= source_address' <= 0xFF ->
       J1939Encoder.calculate_can_id pgn' source_address'
       = J1939Encoder.calculate_can_id pgn source_address ->
       pgn' = pgn /\ source_address' = source_address.
Proof.
  assert (Hread : forall p s, 0 <= p < 0xF000 -> 0 <= s <= 0xFF ->
            bit_field (J1939Encoder.calculate_can_id p s) 8 16 = p
            /\ bit_field (J1939Encoder.calculate_can_id p s) 0 8 = s).
  { intros p s Hp Hs.
    rewrite !bit_field_div_mod, calculate_can_id_sum by lia.
    destruct (Z.ltb_spec p 0xF000); [|lia].
    rewrite (Z.mod_small s) by lia.
    change (2 ^ 0) with 1. change (2 ^ 26) with 67108864.
    change (2 ^ 16) with 65536. change (2 ^ 8) with 256.
    split; Z.div_mod_to_equations; lia. }
  destruct (Hread pgn source_address Hpgn Hsa) as [Hp Hs].
  split; [exact Hp|]. split; [exact Hs|].
  intros pgn' source_address' Hpgn' Hsa' Heq.
  destruct (Hread pgn' source_address' Hpgn' Hsa') as [Hp' Hs'].
  rewrite Heq in Hp', Hs'. split; congruence.
Qed.

(** PGN [0xEA00] (request) from source address [0x21]. *)
Lemma calculate_can_id_pgn_recoverable_witness :
  bit_field (J1939Encoder.calculate_can_id 0xEA00 0x21) 8 16 = 0xEA00
  /\ bit_field (J1939Encoder.calculate_can_id 0xEA00 0x21) 0 8 = 0x21.
Proof.
  destruct (calculate_can_id_pgn_recoverable 0xEA00 0x21) as (Hp & Hs & _);
    [lia|lia|].
  split; [exact Hp|exact Hs].
Defined.

(** X2. From [0xF000] on, the identifier keeps only the high byte of the
    PGN: two PGNs with the same high byte get the same identifier,
    whatever their low bytes.  The PGNs of [vehicle_speed] ([0xFEF1]) and
    [cab_temperature] ([0xFEF5]) collide in this way. *)
Theorem calculate_can_id_low_byte_dropped (pgn pgn' source_address : Z)
    (Hpgn : 0xF000 <= pgn)
    (Hpgn' : 0xF000 <= pgn')
    (Hhigh : Z.land (Z.shiftr pgn 8) 0xFF = Z.land (Z.shiftr pgn' 8) 0xFF) :
  J1939Encoder.calculate_can_id pgn source_address
  = J1939Encoder.calculate_can_id pgn' source_address
  /\ J1939Encoder.calculate_can_id 0xFEF1 0 = J1939Encoder.calculate_can_id 0xFEF5 0.
Proof.
  split; [|reflexivity].
  rewrite !land_byte, !Z.shiftr_div_pow2 in Hhigh by lia.
  rewrite !calculate_can_id_sum, Hhigh.
  destruct (Z.ltb_spec pgn 0xF000), (Z.ltb_spec pgn' 0xF000); try lia.
Qed.

(** Two PGNs of the [0xFE] page. *)
Lemma calculate_can_id_low_byte_dropped_witness :
  J1939Encoder.calculate_can_id 0xFEEE 3 = J1939Encoder.calculate_can_id 0xFE00 3.
Proof.
  exact (proj1 (calculate_can_id_low_byte_dropped 0xFEEE 0xFE00 3
                  ltac:(lia) ltac:(lia) eq_refl)).
Defined.

(** X3. No PGN and no source address is refused: for all integers the
    result is a 29-bit number with priority 6, and of the source address
    only the low eight bits count. *)
Theorem calculate_can_id_total (pgn source_address : Z) :
  0 <= J1939Encoder.calculate_can_id pgn source_address < 2 ^ 29
  /\ bit_field (J1939Encoder.calculate_can_id pgn source_address) 26 3 = 6
  /\ J1939Encoder.calculate_can_id pgn source_address
     = J1939Encoder.calculate_can_id pgn (Z.land source_address 0xFF)
  /\ bit_field (J1939Encoder.calculate_can_id pgn source_address) 0 8
     = Z.land source_address 0xFF.
Proof.
  rewrite !bit_field_div_mod, !calculate_can_id_sum, !land_byte by lia.
  rewrite Z.mod_mod by lia.
  set (ps := if pgn <? 0xF000 then pgn mod 2 ^ 8 else 0xFF).
  assert (Hps : 0 <= ps < 2 ^ 8).
  { unfold ps. destruct (pgn <? 0xF000); [apply Z.mod_pos_bound|]; lia. }
  assert (Hpf := Z.mod_pos_bound (pgn / 2 ^ 8) (2 ^ 8) ltac:(lia)).
  assert (Hsa := Z.mod_pos_bound source_address (2 ^ 8) ltac:(lia)).
  set (pf := (pgn / 2 ^ 8) mod 2 ^ 8) in *.
  set (sa := source_address mod 2 ^ 8) in *.
  change (2 ^ 0) with 1. change (2 ^ 29) with 536870912.
  change (2 ^ 26) with 67108864. change (2 ^ 16) with 65536.
  change (2 ^ 8) with 256 in *. change (2 ^ 3) with 8.
  split; [lia|]. split; [Z.div_mod_to_equations; lia|].
  split; [reflexivity|]. Z.div_mod_to_equations; lia.
Qed.

(** ** Rounding and the floor at 0 *)

Lemma round_half_even_bounds (q : Q) :
  (inject_Z (round_half_even q) - (1 # 2) <= q)%Q
  /\ (q <= inject_Z (round_half_even q) + (1 # 2))%Q.
Proof.
  pose proof (round_half_even_near q) as H.
  apply Qabs_Qle_condition in H. split; lra.
Qed.

Lemma inject_Z_le_1 (a b : Z) : (inject_Z a <= inject_Z b + 1)%Q -> a <= b + 1.
Proof.
  intros H. unfold Qle, Qplus, inject_Z in H. cbn [Qnum Qden] in H. lia.
Qed.

Lemma round_half_even_monotone (q1 q2 : Q) :
  (q1 <= q2)%Q -> round_half_even q1 <= round_half_even q2.
Proof.
  intros Hle.
  destruct (round_half_even_bounds q1) as [Hlo1 Hhi1].
  destruct (round_half_even_bounds q2) as [Hlo2 Hhi2].
  set (r1 := round_half_even q1) in *. set (r2 := round_half_even q2) in *.
  assert (Hstep : r1 <= r2 + 1) by (apply inject_Z_le_1; lra).
  destruct (Z.eq_dec r1 (r2 + 1)) as [Heq|]; [|lia].
  exfalso.
  assert (Hr1 : (inject_Z r1 == inject_Z r2 + 1)%Q)
    by (rewrite Heq, inject_Z_plus; reflexivity).
  assert (Htie1 : (q1 == inject_Z r2 + (1 # 2))%Q) by lra.
  assert (Htie2 : (q2 == inject_Z r2 + (1 # 2))%Q) by lra.
  pose proof (round_half_even_tie q1 r2 Htie1) as H1.
  pose proof (round_half_even_tie q2 r2 Htie2) as H2.
  fold r1 in H1. fold r2 in H2.
  destruct (Z.even r2); lia.
Qed.

Lemma round_half_even_zero (q : Q) :
  round_half_even q <= 0 <-> (q <= 1 # 2)%Q.
Proof.
  destruct (round_half_even_bounds q) as [Hlo Hhi].
  split.
  - intros Hr.
    assert (Hz : (inject_Z (round_half_even q) <= 0)%Q)
      by (rewrite <- (Zle_Qle _ 0); exact Hr).
    lra.
  - intros Hq.
    pose proof (round_half_even_monotone q (1 # 2) Hq) as Hmono.
    exact Hmono.
Qed.

(** X4. With a non-zero resolution and a finite binary64 quotient
    [(value - offset) / resolution], the raw value is 0 exactly when that
    quotient is at most one half: every physical value up to half a
    resolution step above the offset, and every value below the offset,
    encodes as 0. *)
Theorem physical_to_raw_zero
    (physical_value resolution offset : float) (q : Q) (raw : Z)
    (Hres : (resolution =? 0)%float = false)
    (Hq : float_value ((physical_value - offset) / resolution)%float = Some q)
    (Hraw : J1939Encoder.physical_to_raw physical_value resolution offset
            = Ok raw) :
  raw = 0 <-> (q <= 1 # 2)%Q.
Proof.
  rewrite (physical_to_raw_finite _ _ _ q Hres Hq) in Hraw.
  injection Hraw as <-.
  rewrite <- round_half_even_zero. lia.
Qed.

(** [cab_temperature] at -300 degrees, below its offset. *)
Lemma physical_to_raw_zero_witness :
  J1939Encoder.physical_to_raw (-300) 0.03125 (-273) = Ok 0
  /\ (0 = 0 <-> (-864 # 1 <= 1 # 2)%Q).
Proof.
  assert (Hraw : J1939Encoder.physical_to_raw (-300) 0.03125 (-273) = Ok 0)
    by run.
  split; [exact Hraw|].
  apply (physical_to_raw_zero (-300) 0.03125 (-273) (-864 # 1) 0);
    [run|run|exact Hraw].
Defined.

(** X5. The raw value grows with the quotient: of two calls with
    non-zero resolutions and finite binary64 quotients, the one with the
    smaller quotient never returns the larger raw value. *)
Theorem physical_to_raw_monotone
    (value1 resolution1 offset1 value2 resolution2 offset2 : float)
    (q1 q2 : Q) (raw1 raw2 : Z)
    (Hres1 : (resolution1 =? 0)%float = false)
    (Hres2 : (resolution2 =? 0)%float = false)
    (Hq1 : float_value ((value1 - offset1) / resolution1)%float = Some q1)
    (Hq2 : float_value ((value2 - offset2) / resolution2)%float = Some q2)
    (Hraw1 : J1939Encoder.physical_to_raw value1 resolution1 offset1 = Ok raw1)
    (Hraw2 : J1939Encoder.physical_to_raw value2 resolution2 offset2 = Ok raw2)
    (Hle : (q1 <= q2)%Q) :
  raw1 <= raw2.
Proof.
  rewrite (physical_to_raw_finite _ _ _ q1 Hres1 Hq1) in Hraw1.
  rewrite (physical_to_raw_finite _ _ _ q2 Hres2 Hq2) in Hraw2.
  injection Hraw1 as <-. injection Hraw2 as <-.
  pose proof (round_half_even_monotone q1 q2 Hle). lia.
Qed.

(** [engine_speed] at 999.9 and at 1000 rpm. *)
Lemma physical_to_raw_monotone_witness :
  J1939Encoder.physical_to_raw 0x1.f3f3333333333p+9 0.125 0 = Ok 7999
  /\ J1939Encoder.physical_to_raw 1000 0.125 0 = Ok 8000
  /\ 7999 <= 8000.
Proof.
  assert (H1 : J1939Encoder.physical_to_raw 0x1.f3f3333333333p+9 0.125 0
               = Ok 7999) by run.
  assert (H2 : J1939Encoder.physical_to_raw 1000 0.125 0 = Ok 8000) by run.
  split; [exact H1|]. split; [exact H2|].
  apply (physical_to_raw_monotone
           0x1.f3f3333333333p+9 0.125 0 1000 0.125 0
           (8795213412905779 # 1099511627776) 8000 7999 8000);
    try run; try assumption.
  vm_compute. discriminate.
Defined.

(** ** The packer outside its intended range *)

Lemma setitem_frame (data : list Z) (i v : Z) (data' : list Z) :
  is_frame data -> setitem data i v = Ok data' -> is_frame data'.
Proof.
  intros [Hlen Hbytes]. unfold setitem.
  destruct (index_of data i) as [k|e]; cbn [bind]; [|discriminate].
  destruct (Z.leb_spec 0 v), (Z.ltb_spec v 256); simpl; try discriminate.
  intros Heq. injection Heq as <-. split.
  - rewrite update_length. assumption.
  - apply update_Forall; [assumption|lia].
Qed.

Lemma encode_bit_frame (raw byte_idx bit_idx : Z) (data : list Z) (i : Z)
    (data' : list Z) :
  is_frame data ->
  J1939Encoder.encode_bit raw byte_idx bit_idx data i = Ok data' ->
  is_frame data'.
Proof.
  intros Hdata. unfold J1939Encoder.encode_bit.
  destruct (getitem data _) as [old|e]; cbn [bind]; [|discriminate].
  destruct (_ =? 0); apply setitem_frame; assumption.
Qed.

Lemma encode_loop_frame (raw byte_idx bit_idx : Z) (indices : list Z) :
  forall data data',
    is_frame data ->
    J1939Encoder.encode_loop raw byte_idx bit_idx data indices = Ok data' ->
    is_frame data'.
Proof.
  induction indices as [|i rest IH]; intros data data' Hdata; cbn.
  - intros H. injection H as <-. assumption.
  - destruct (J1939Encoder.encode_bit raw byte_idx bit_idx data i)
      as [data1|e] eqn:Hstep; cbn [bind]; [|discriminate].
    apply IH. eapply encode_bit_frame; eassumption.
Qed.


(** X6. Whatever its arguments, when [encode_value] returns it returns
    eight bytes, each in [0, 255]. *)
Theorem encode_value_frame
    (raw_value start_byte start_bit length_bits : Z) (data : list Z)
    (Hdata : J1939Encoder.encode_value raw_value start_byte start_bit
               length_bits = Ok data) :
  List.length data = 8%nat /\ Forall (fun b => 0 <= b <= 255) data.
Proof.
  unfold J1939Encoder.encode_value in Hdata.
  destruct (length_bits <? 0); [discriminate|].
  apply encode_loop_frame in Hdata; [|apply is_frame_zero].
  destruct Hdata as [Hlen Hbytes]. split; [exact Hlen|].
  eapply Forall_impl; [|exact Hbytes]. cbv beta. intros b Hb. lia.
Qed.

(** A field placed with start byte 0, which wraps to the last byte. *)
Lemma encode_value_frame_witness :
  J1939Encoder.encode_value (-1) 0 3 4 = Ok [0; 0; 0; 0; 0; 0; 0; 0x3C]
  /\ List.length [0; 0; 0; 0; 0; 0; 0; 0x3C] = 8%nat
  /\ Forall (fun b => 0 <= b <= 255) [0; 0; 0; 0; 0; 0; 0; 0x3C].
Proof.
  assert (H : J1939Encoder.encode_value (-1) 0 3 4
              = Ok [0; 0; 0; 0; 0; 0; 0; 0x3C]) by run.
  split; [exact H|].
  exact (encode_value_frame (-1) 0 3 4 _ H).
Defined.




Lemma index_of_wrap (data : list Z) (i : Z) :
  List.length data = 8%nat -> -8 <= i < 0 ->
  index_of data i = index_of data (i + 8).
Proof.
  intros Hlen Hi. unfold index_of. rewrite Hlen.
  destruct (Z.leb_spec 0 i), (Z.ltb_spec i (Z.of_nat 8)),
           (Z.leb_spec (- Z.of_nat 8) i), (Z.ltb_spec i 0),
           (Z.leb_spec 0 (i + 8)), (Z.ltb_spec (i + 8) (Z.of_nat 8));
    simpl; try lia.
  f_equal.
Qed.

Lemma encode_bit_wrap (raw byte_idx bit_idx : Z) (data : list Z) (i : Z) :
  List.length data = 8%nat ->
  -8 <= byte_idx + (bit_idx + i) / 8 < 0 ->
  J1939Encoder.encode_bit raw byte_idx bit_idx data i
  = J1939Encoder.encode_bit raw (byte_idx + 8) bit_idx data i.
Proof.
  intros Hlen Hcb. unfold J1939Encoder.encode_bit, getitem, setitem.
  replace (byte_idx + 8 + (bit_idx + i) / 8)
    with (byte_idx + (bit_idx + i) / 8 + 8) by lia.
  rewrite (index_of_wrap data _ Hlen Hcb). reflexivity.
Qed.

Lemma encode_loop_wrap (raw byte_idx bit_idx : Z) (indices : list Z) :
  forall data,
    is_frame data ->
    Forall (fun i => -8 <= byte_idx + (bit_idx + i) / 8 < 0) indices ->
    J1939Encoder.encode_loop raw byte_idx bit_idx data indices
    = J1939Encoder.encode_loop raw (byte_idx + 8) bit_idx data indices.
Proof.
  induction indices as [|i rest IH]; intros data Hdata Hall; cbn;
    [reflexivity|].
  inversion Hall as [|? ? Hi Hrest]; subst.
  rewrite (encode_bit_wrap raw byte_idx bit_idx data i (proj1 Hdata) Hi).
  destruct (J1939Encoder.encode_bit raw (byte_idx + 8) bit_idx data i)
    as [data1|e] eqn:Hstep; cbn [bind]; [|reflexivity].
  apply IH; [|assumption].
  eapply encode_bit_frame; eassumption.
Qed.

(** X8. A start byte from -7 to 0 is not refused: as long as the field
    stays in bytes with a negative index, the negative byte index counts
    from the end of the frame and the result is that of the start byte
    eight higher; start byte 0 addresses the last byte. *)
Theorem encode_value_start_byte_wraps
    (raw_value start_byte start_bit length_bits : Z)
    (Hbyte : -7 <= start_byte <= 0)
    (Hbit : 1 <= start_bit)
    (Hfit : (start_bit - 1) + length_bits <= 8 * (1 - start_byte)) :
  J1939Encoder.encode_value raw_value start_byte start_bit length_bits
  = J1939Encoder.encode_value raw_value (start_byte + 8) start_bit length_bits.
Proof.
  unfold J1939Encoder.encode_value.
  destruct (Z.ltb_spec length_bits 0); [reflexivity|].
  replace (start_byte + 8 - 1) with (start_byte - 1 + 8) by lia.
  apply encode_loop_wrap; [apply is_frame_zero|].
  unfold range. apply Forall_forall. intros i Hi.
  apply in_map_iff in Hi. destruct Hi as (k & <- & Hk).
  apply in_seq in Hk.
  assert (Hi : 0 <= Z.of_nat k < length_bits) by lia.
  Z.div_mod_to_equations. lia.
Qed.

(** A 16-bit field at start byte -1 lands in the last two bytes, as at
    start byte 7. *)
Lemma encode_value_start_byte_wraps_witness :
  J1939Encoder.encode_value 8000 (-1) 1 16
  = J1939Encoder.encode_value 8000 7 1 16
  /\ J1939Encoder.encode_value 8000 7 1 16
     = Ok [0; 0; 0; 0; 0; 0; 0x40; 0x1F].
Proof.
  split; [|run].
  apply (encode_value_start_byte_wraps 8000 (-1) 1 16); lia.
Defined.

(** ** The frame as a little-endian integer *)

Lemma le_int_testbit (data : list Z) :
  Forall (fun b => 0 <= b < 256) data ->
  forall k, 0 <= k -> Z.testbit (le_int data) k = frame_bit data k.
Proof.
  unfold frame_bit.
  induction 1 as [|b tl Hb Htl IH]; intros k Hk.
  - cbn [le_int]. rewrite Z.bits_0.
    destruct (Z.to_nat (k / 8)); symmetry; apply Z.bits_0.
  - cbn [le_int].
    replace (b + 256 * le_int tl) with (Z.lor (Z.shiftl (le_int tl) 8) b)
      by (rewrite lor_shiftl_add; lia).
    rewrite Z.lor_spec.
    destruct (Z.lt_ge_cases k 8) as [Hlow|Hhigh].
    + rewrite Z.shiftl_spec_low by assumption.
      rewrite Z.div_small, Z.mod_small by lia. reflexivity.
    + rewrite Z.shiftl_spec by assumption.
      rewrite (testbit_above b 8 k) by (change (2 ^ 8) with 256; lia).
      rewrite orb_false_r, IH by lia.
      replace (k / 8) with ((k - 8) / 8 + 1)
        by (Z.div_mod_to_equations; lia).
      replace (k mod 8) with ((k - 8) mod 8)
        by (Z.div_mod_to_equations; lia).
      assert (0 <= (k - 8) / 8) by (apply Z.div_pos; lia).
      rewrite Z2Nat.inj_add by lia. rewrite Nat.add_1_r. reflexivity.
Qed.

(** X9. For a field that fits in the frame and a non-negative raw value,
    the eight bytes read as one little-endian integer are the saturated
    raw value shifted left by the field's bit position: every field is
    packed in Intel (little-endian) order and nothing else is set. *)
Theorem encode_value_little_endian
    (raw_value start_byte start_bit length_bits : Z)
    (Hraw : 0 <= raw_value)
    (Hbyte : 1 <= start_byte)
    (Hbit : 1 <= start_bit)
    (Hlen : 0 <= length_bits)
    (Hfit : (start_byte - 1) * 8 + (start_bit - 1) + length_bits <= 64) :
  exists data,
    J1939Encoder.encode_value raw_value start_byte start_bit length_bits
    = Ok data
    /\ le_int data
       = Z.shiftl (Z.min raw_value (2 ^ length_bits - 1))
           ((start_byte - 1) * 8 + (start_bit - 1))
    /\ 0 <= le_int data < 2 ^ 64.
Proof.
  destruct (encode_value_spec raw_value start_byte start_bit length_bits)
    as (data & Henc & [Hlen8 Hbytes] & Hbits); try lia.
  exists data. split; [exact Henc|].
  set (pos := (start_byte - 1) * 8 + (start_bit - 1)) in *.
  set (sat := Z.min raw_value (2 ^ length_bits - 1)) in *.
  assert (Hpow : 0 < 2 ^ length_bits) by (apply Z.pow_pos_nonneg; lia).
  assert (Hsat : 0 <= sat < 2 ^ length_bits) by (unfold sat; lia).
  assert (Heq : le_int data = Z.shiftl sat pos).
  { apply Z.bits_inj'. intros k Hk.
    rewrite (le_int_testbit data Hbytes k Hk), Hbits by assumption.
    destruct (Z.leb_spec pos k), (Z.ltb_spec k (pos + length_bits)); simpl.
    - rewrite Z.shiftl_spec by assumption. reflexivity.
    - rewrite Z.shiftl_spec by assumption.
      symmetry. apply (testbit_above sat length_bits); lia.
    - rewrite Z.shiftl_spec_low by assumption. reflexivity.
    - rewrite Z.shiftl_spec_low by lia. reflexivity. }
  split; [exact Heq|].
  rewrite Heq, Z.shiftl_mul_pow2 by lia.
  assert (Hpp : 0 < 2 ^ pos) by (apply Z.pow_pos_nonneg; lia).
  split; [nia|].
  apply Z.lt_le_trans with (2 ^ length_bits * 2 ^ pos); [nia|].
  rewrite <- Z.pow_add_r by lia.
  apply Z.pow_le_mono_r; lia.
Qed.

(** [engine_speed] with raw value 8000: [0x1F40] shifted by 24 bits. *)
Lemma encode_value_little_endian_witness :
  exists data,
    J1939Encoder.encode_value 8000 4 1 16 = Ok data
    /\ le_int data = Z.shiftl (Z.min 8000 (2 ^ 16 - 1)) ((4 - 1) * 8 + (1 - 1)).
Proof.
  destruct (encode_value_little_endian 8000 4 1 16)
    as (data & Henc & Hint & _); try lia.
  exists data. split; [exact Henc|exact Hint].
Defined.

(** ** The strings of a frame *)

Lemma string_app_assoc (s1 s2 s3 : string) :
  ((s1 ++ s2) ++ s3 = s1 ++ (s2 ++ s3))%string.
Proof. induction s1 as [|c s1 IH]; cbn; [reflexivity|]. rewrite IH. reflexivity. Qed.

Lemma string_length_app (s1 s2 : string) :
  String.length (s1 ++ s2) = (String.length s1 + String.length s2)%nat.
Proof. induction s1 as [|c s1 IH]; cbn; [reflexivity|]. rewrite IH. reflexivity. Qed.

Lemma string_forallb_app (p : ascii -> bool) (s1 s2 : string) :
  string_forallb p (s1 ++ s2) = string_forallb p s1 && string_forallb p s2.
Proof.
  induction s1 as [|c s1 IH]; cbn; [reflexivity|].
  rewrite IH. apply andb_assoc.
Qed.

Lemma in_range (b n : Z) : 0 <= b < n -> In b (range n).
Proof.
  intros Hb. unfold range. apply in_map_iff.
  exists (Z.to_nat b). split; [lia|]. apply in_seq. lia.
Qed.

Lemma byte_hex_ok_all (b : Z) : 0 <= b < 256 -> byte_hex_ok b = true.
Proof.
  intros Hb.
  assert (Hall : forallb byte_hex_ok (range 256) = true) by run.
  rewrite forallb_forall in Hall. apply Hall, in_range, Hb.
Qed.

Lemma digit_ok_all (d : Z) : 0 <= d < 16 -> digit_ok d = true.
Proof.
  intros Hd.
  assert (Hall : forallb digit_ok (range 16) = true) by run.
  rewrite forallb_forall in Hall. apply Hall, in_range, Hd.
Qed.

Lemma hex_upper_fromhex (data : list Z) :
  Forall (fun b => 0 <= b < 256) data ->
  fromhex (hex_upper data) = Some data
  /\ String.length (hex_upper data) = (2 * List.length data)%nat
  /\ string_forallb is_upper_hex (hex_upper data) = true.
Proof.
  induction 1 as [|b tl Hb Htl (IHhex & IHlen & IHup)];
    [repeat split|].
  pose proof (byte_hex_ok_all b Hb) as Hok. unfold byte_hex_ok in Hok.
  cbn [hex_upper].
  destruct (format_int 16 2 b) as [|hi [|lo [|? ?]]]; try discriminate.
  destruct (hex_digit hi) as [h|] eqn:Hhi; [|discriminate].
  destruct (hex_digit lo) as [l|] eqn:Hlo; [|discriminate].
  apply andb_prop in Hok. destruct Hok as [Hok Hlo_up].
  apply andb_prop in Hok. destruct Hok as [Hval Hhi_up].
  apply Z.eqb_eq in Hval.
  cbn [append fromhex String.length string_forallb List.length].
  rewrite Hhi, Hlo, IHhex, IHlen, IHup, Hhi_up, Hlo_up, Hval.
  repeat split. lia.
Qed.

(** What [encode_spn] puts in the frame it returns. *)
Lemma encode_spn_fields (physical_value : float) (spn_config : Config.t)
    (frame : Frame.t) :
  J1939Encoder.encode_spn physical_value spn_config = Ok frame ->
  exists raw data,
    J1939Encoder.physical_to_raw physical_value
      (get (Config.resolution spn_config) 1%float)
      (get (Config.offset spn_config) 0%float) = Ok raw
    /\ J1939Encoder.encode_value raw
         (get (Config.start_byte spn_config) 1)
         (get (Config.start_bit spn_config) 1)
         (get (Config.length_bits spn_config) 8) = Ok data
    /\ Frame.raw_value frame = raw
    /\ Frame.data_array frame = data
    /\ Frame.data_bytes frame = hex_upper data
    /\ Frame.raw_hex frame = ("0x" ++ format_int 16 0 raw)%string
    /\ Frame.raw_binary frame
       = format_int 2 (Z.to_nat (get (Config.length_bits spn_config) 8)) raw
    /\ Frame.can_id frame
       = J1939Encoder.calculate_can_id (get (Config.pgn spn_config) 0) 0
    /\ Frame.can_id_hex frame
       = ("0x" ++ format_int 16 8 (Frame.can_id frame))%string
    /\ Frame.pgn frame = get (Config.pgn spn_config) 0
    /\ Frame.pgn_hex frame
       = ("0x" ++ format_int 16 4 (Frame.pgn frame))%string.
Proof.
  unfold J1939Encoder.encode_spn.
  destruct (J1939Encoder.physical_to_raw _ _ _) as [raw|e] eqn:Hraw;
    [|discriminate].
  cbn [bind].
  destruct (J1939Encoder.encode_value raw _ _ _) as [data|e] eqn:Hdata;
    [|discriminate].
  cbn [bind]. intros H. injection H as <-.
  exists raw, data. cbn.
  split; [reflexivity|]. split; [exact Hdata|]. repeat split.
Qed.

(** X10. In every frame [encode_spn] returns, [data_bytes] is sixteen
    upper-case hexadecimal digits, and reading them back two by two
    gives [data_array], eight bytes: the two renderings of the data
    field agree. *)
Theorem encode_spn_data_bytes (physical_value : float) (spn_config : Config.t)
    (frame : Frame.t)
    (Hframe : J1939Encoder.encode_spn physical_value spn_config = Ok frame) :
  fromhex (Frame.data_bytes frame) = Some (Frame.data_array frame)
  /\ String.length (Frame.data_bytes frame) = 16%nat
  /\ string_forallb is_upper_hex (Frame.data_bytes frame) = true
  /\ List.length (Frame.data_array frame) = 8%nat.
Proof.
  destruct (encode_spn_fields _ _ _ Hframe)
    as (raw & data & _ & Hdata & _ & Harray & Hbytes & _).
  unfold J1939Encoder.encode_value in Hdata.
  destruct (_ <? 0); [discriminate|].
  apply encode_loop_frame in Hdata; [|apply is_frame_zero].
  destruct Hdata as [Hlen Hrange].
  destruct (hex_upper_fromhex data Hrange) as (Hhex & Hlen2 & Hup).
  rewrite Hbytes, Harray, Hlen2, Hlen. repeat split; assumption.
Qed.

(** [cab_temperature] at 21.5 degrees. *)
Lemma encode_spn_data_bytes_witness :
  exists frame,
    J1939Encoder.encode_spn 21.5
      (signal 65269 170 "Cab Temperature" 0.03125 (-273) "°C" 1000
         (-273) 1735 2 1 16) = Ok frame
    /\ Frame.data_bytes frame = "00D0240000000000"%string
    /\ fromhex (Frame.data_bytes frame) = Some (Frame.data_array frame).
Proof.
  eexists. split; [run|]. split; [run|].
  match goal with
  | |- fromhex (Frame.data_bytes ?f) = _ =>
      apply (encode_spn_data_bytes 21.5
               (signal 65269 170 "Cab Temperature" 0.03125 (-273) "°C" 1000
                  (-273) 1735 2 1 16) f)
  end.
  run.
Defined.

Lemma digits_of_acc (base : Z) (fuel : nat) :
  forall n acc,
    digits_of fuel base n acc
    = (digits_of fuel base n EmptyString ++ acc)%string.
Proof.
  induction fuel as [|fuel IH]; intros n acc; cbn [digits_of];
    [reflexivity|].
  destruct (n <? base); [reflexivity|].
  rewrite IH, (IH _ (String _ EmptyString)), string_app_assoc. reflexivity.
Qed.

Lemma digits_value_app (base : Z) (s1 s2 : string) :
  forall acc,
    digits_value base (s1 ++ s2) acc
    = match digits_value base s1 acc with
      | Some acc' => digits_value base s2 acc'
      | None => None
      end.
Proof.
  induction s1 as [|c s1 IH]; intros acc; cbn [append digits_value];
    [reflexivity|].
  destruct (hex_digit c) as [d|]; [|reflexivity].
  destruct (d <? base); [apply IH|reflexivity].
Qed.

Lemma digits_value_digit (base d acc : Z) :
  0 <= d < base -> base <= 16 ->
  digits_value base (String (digit_char d) EmptyString) acc
  = Some (acc * base + d).
Proof.
  intros Hd Hbase. cbn [digits_value].
  pose proof (digit_ok_all d ltac:(lia)) as Hok. unfold digit_ok in Hok.
  destruct (hex_digit (digit_char d)) as [d'|]; [|discriminate].
  apply andb_prop in Hok. destruct Hok as [Heq _].
  apply Z.eqb_eq in Heq. subst d'.
  destruct (Z.ltb_spec d base); [reflexivity|lia].
Qed.

(** The digits written for [n] read back as [n]. *)
Lemma digits_value_digits_of (base : Z) (fuel : nat) :
  2 <= base <= 16 ->
  forall n,
    0 <= n < base ^ (Z.of_nat fuel + 1) ->
    digits_value base (digits_of fuel base n EmptyString) 0 = Some n.
Proof.
  intros Hbase.
  induction fuel as [|fuel IH]; intros n Hn; cbn [digits_of].
  - change (Z.of_nat 0 + 1) with 1 in Hn. rewrite Z.pow_1_r in Hn.
    rewrite Z.mod_small by lia.
    rewrite digits_value_digit by lia. f_equal.
  - destruct (Z.ltb_spec n base) as [Hsmall|Hbig].
    + rewrite Z.mod_small by lia.
      rewrite digits_value_digit by lia. f_equal.
    + rewrite digits_of_acc, digits_value_app.
      assert (Hq : 0 <= n / base < base ^ (Z.of_nat fuel + 1)).
      { split; [apply Z.div_pos; lia|].
        apply Z.div_lt_upper_bound; [lia|].
        rewrite <- Z.pow_succ_r by lia.
        replace (Z.succ (Z.of_nat fuel + 1)) with (Z.of_nat (S fuel) + 1)
          by lia.
        apply Hn. }
      rewrite (IH _ Hq).
      rewrite digits_value_digit
        by (try apply Z.mod_pos_bound; lia).
      f_equal. pose proof (Z.div_mod n base ltac:(lia)). lia.
Qed.

(** A number below [base ^ k] is written with at most [k] digits. *)
Lemma digits_of_length (base : Z) (fuel : nat) :
  2 <= base ->
  forall n k,
    (1 <= k)%nat -> 0 <= n < base ^ Z.of_nat k ->
    (String.length (digits_of fuel base n EmptyString) <= k)%nat.
Proof.
  intros Hbase.
  induction fuel as [|fuel IH]; intros n k Hk Hn; cbn [digits_of].
  - cbn. lia.
  - destruct (Z.ltb_spec n base) as [Hsmall|Hbig]; [cbn; lia|].
    rewrite digits_of_acc, string_length_app. cbn [String.length].
    assert (Hk2 : (2 <= k)%nat).
    { destruct k as [|[|k]]; lia. }
    assert (Hq : 0 <= n / base < base ^ Z.of_nat (k - 1)).
    { split; [apply Z.div_pos; lia|].
      apply Z.div_lt_upper_bound; [lia|].
      rewrite <- Z.pow_succ_r by lia.
      replace (Z.succ (Z.of_nat (k - 1))) with (Z.of_nat k) by lia.
      apply Hn. }
    pose proof (IH (n / base) (k - 1)%nat ltac:(lia) Hq). lia.
Qed.

Lemma zeros_value (base : Z) (k : nat) (s : string) :
  0 < base ->
  digits_value base (zeros k ++ s) 0 = digits_value base s 0.
Proof.
  intros Hbase. induction k as [|k IH]; [reflexivity|].
  cbn [zeros append digits_value].
  change (hex_digit "0") with (Some 0). cbv beta iota.
  replace (0 <? base) with true by (symmetry; apply Z.ltb_lt; lia).
  exact IH.
Qed.

Lemma zeros_length (k : nat) : String.length (zeros k) = k.
Proof. induction k as [|k IH]; cbn; [reflexivity|]. rewrite IH. reflexivity. Qed.

Lemma log2_fuel (base n : Z) :
  2 <= base -> 0 <= n ->
  n < base ^ (Z.of_nat (Z.to_nat (Z.log2 n)) + 1).
Proof.
  intros Hbase Hn.
  pose proof (Z.log2_nonneg n) as Hlog.
  rewrite Z2Nat.id by assumption.
  destruct (Z.eq_dec n 0) as [->|Hpos].
  - apply Z.pow_pos_nonneg; cbn; lia.
  - destruct (Z.log2_spec n ltac:(lia)) as [_ Hup].
    apply Z.lt_le_trans with (2 ^ Z.succ (Z.log2 n)); [exact Hup|].
    replace (Z.log2 n + 1) with (Z.succ (Z.log2 n)) by lia.
    apply Z.pow_le_mono_l. lia.
Qed.

(** [format_int] on a number that is not negative: it reads back as the
    number, and it has exactly [width] characters when the number has no
    more than [width] digits. *)
Lemma format_int_value (base : Z) (width : nat) (n : Z) :
  2 <= base <= 16 -> 0 <= n ->
  digits_value base (format_int base width n) 0 = Some n.
Proof.
  intros Hbase Hn. unfold format_int.
  destruct (Z.ltb_spec n 0); [lia|].
  rewrite Z.abs_eq by assumption.
  rewrite zeros_value by lia.
  apply digits_value_digits_of; [assumption|].
  split; [assumption|apply log2_fuel; lia].
Qed.

Lemma format_int_length (base : Z) (width k : nat) (n : Z) :
  2 <= base -> (1 <= k <= width)%nat -> 0 <= n < base ^ Z.of_nat k ->
  String.length (format_int base width n) = width.
Proof.
  intros Hbase Hk Hn. unfold format_int.
  destruct (Z.ltb_spec n 0); [lia|].
  rewrite Z.abs_eq by lia.
  rewrite string_length_app, zeros_length.
  pose proof (digits_of_length base (Z.to_nat (Z.log2 n)) Hbase n k
                ltac:(lia) Hn).
  lia.
Qed.

(** X11. In every frame [encode_spn] returns, the hexadecimal fields
    read back as the numbers beside them: [raw_hex] is ["0x"] and digits
    that read as [raw_value], [can_id_hex] is ["0x"] and exactly eight
    digits that read as [can_id], and for a PGN that is not negative
    [pgn_hex] is ["0x"] and digits that read as [pgn], exactly four of
    them when the PGN is below [0x10000]. *)
Theorem encode_spn_hex_fields (physical_value : float) (spn_config : Config.t)
    (frame : Frame.t)
    (Hframe : J1939Encoder.encode_spn physical_value spn_config = Ok frame) :
  (exists digits,
     Frame.raw_hex frame = ("0x" ++ digits)%string
     /\ digits_value 16 digits 0 = Some (Frame.raw_value frame))
  /\ (exists digits,
        Frame.can_id_hex frame = ("0x" ++ digits)%string
        /\ String.length digits = 8%nat
        /\ digits_value 16 digits 0 = Some (Frame.can_id frame))
  /\ (0 <= Frame.pgn frame ->
      exists digits,
        Frame.pgn_hex frame = ("0x" ++ digits)%string
        /\ digits_value 16 digits 0 = Some (Frame.pgn frame)
        /\ (Frame.pgn frame < 0x10000 -> String.length digits = 4%nat)).
Proof.
  destruct (encode_spn_fields _ _ _ Hframe)
    as (raw & data & Hraw & _ & Hrv & _ & _ & Hrh & _ & Hid & Hidh & _ & Hph).
  pose proof (physical_to_raw_nonneg _ _ _ _ Hraw) as Hnonneg.
  pose proof (proj1 (calculate_can_id_total
                       (get (Config.pgn spn_config) 0) 0)) as Hrange.
  rewrite <- Hid in Hrange.
  split; [|split].
  - exists (format_int 16 0 raw). split; [exact Hrh|].
    rewrite Hrv. apply format_int_value; lia.
  - exists (format_int 16 8 (Frame.can_id frame)). split; [exact Hidh|].
    split; [|apply format_int_value; lia].
    apply (format_int_length 16 8 8); [lia|lia|].
    change (16 ^ Z.of_nat 8) with (2 ^ 32).
    assert (2 ^ 29 < 2 ^ 32) by (apply Z.pow_lt_mono_r; lia). lia.
  - intros Hpgn. exists (format_int 16 4 (Frame.pgn frame)).
    split; [exact Hph|]. split; [apply format_int_value; lia|].
    intros Hsmall. apply (format_int_length 16 4 4); [lia|lia|].
    change (16 ^ Z.of_nat 4) with 0x10000. lia.
Qed.

(** [vehicle_speed] at 88.5 km/h. *)
Lemma encode_spn_hex_fields_witness :
  exists frame digits,
    J1939Encoder.encode_spn 88.5
      (signal 65265 84 "Vehicle Speed" (1 / 256) 0 "km/h" 100
         0 0x1.f5fdf3b645a1dp+7 2 1 16) = Ok frame
    /\ Frame.can_id_hex frame = ("0x" ++ digits)%string
    /\ String.length digits = 8%nat
    /\ digits_value 16 digits 0 = Some (Frame.can_id frame).
Proof.
  assert (Hframe : exists frame,
            J1939Encoder.encode_spn 88.5
              (signal 65265 84 "Vehicle Speed" (1 / 256) 0 "km/h" 100
                 0 0x1.f5fdf3b645a1dp+7 2 1 16) = Ok frame)
    by (eexists; run).
  destruct Hframe as (frame & Hframe).
  destruct (encode_spn_hex_fields _ _ _ Hframe)
    as (_ & (digits & Hhex & Hlen & Hval) & _).
  exists frame, digits. repeat split; assumption.
Defined.

(** X12. In every frame [encode_spn] returns, [raw_binary] is a string of
    binary digits that reads back as [raw_value]; it has exactly
    [length_bits] digits when the raw value fits in the field, that is
    below [2 ^ length_bits], for a width of at least one bit. *)
Theorem encode_spn_raw_binary (physical_value : float) (spn_config : Config.t)
    (frame : Frame.t)
    (Hframe : J1939Encoder.encode_spn physical_value spn_config = Ok frame) :
  digits_value 2 (Frame.raw_binary frame) 0 = Some (Frame.raw_value frame)
  /\ (1 <= get (Config.length_bits spn_config) 8 ->
      Frame.raw_value frame < 2 ^ get (Config.length_bits spn_config) 8 ->
      Z.of_nat (String.length (Frame.raw_binary frame))
      = get (Config.length_bits spn_config) 8).
Proof.
  destruct (encode_spn_fields _ _ _ Hframe)
    as (raw & data & Hraw & _ & Hrv & _ & _ & _ & Hrb & _).
  pose proof (physical_to_raw_nonneg _ _ _ _ Hraw) as Hnonneg.
  rewrite Hrb, Hrv. split; [apply format_int_value; lia|].
  intros Hlen Hfits.
  set (len := get (Config.length_bits spn_config) 8) in *.
  rewrite (format_int_length 2 (Z.to_nat len) (Z.to_nat len)); try lia.
  rewrite Z2Nat.id by lia. lia.
Qed.

(** [driver_torque] at 0 percent: raw value 125 on eight bits. *)
Lemma encode_spn_raw_binary_witness :
  exists frame,
    J1939Encoder.encode_spn 0
      (signal 61444 512 "Driver Torque" 1 (-125) "%" 50 (-125) 125 2 1 8)
    = Ok frame
    /\ Frame.raw_binary frame = "01111101"%string
    /\ digits_value 2 (Frame.raw_binary frame) 0 = Some (Frame.raw_value frame).
Proof.
  eexists. split; [run|]. split; [run|].
  match goal with
  | |- digits_value 2 (Frame.raw_binary ?f) 0 = _ =>
      apply (encode_spn_raw_binary 0
               (signal 61444 512 "Driver Torque" 1 (-125) "%" 50
                  (-125) 125 2 1 8) f)
  end.
  run.
Defined.

(** ** When the encoder succeeds *)

(** X13. For a signal definition with a non-zero resolution and a field
    that lies in the frame, [encode_spn] fails only in the rounding: it
    returns a frame, with raw value [max(0, round(q))], exactly when the
    binary64 quotient [q = (value - offset) / resolution] is finite, and
    raises the error of [round] when it is NaN or infinite. *)
Theorem encode_spn_succeeds (physical_value : float) (spn_config : Config.t)
    (Hres : (get (Config.resolution spn_config) 1 =? 0)%float = false)
    (Hbyte : 1 <= get (Config.start_byte spn_config) 1)
    (Hbit : 1 <= get (Config.start_bit spn_config) 1)
    (Hlen : 0 <= get (Config.length_bits spn_config) 8)
    (Hfit : (get (Config.start_byte spn_config) 1 - 1) * 8
            + (get (Config.start_bit spn_config) 1 - 1)
            + get (Config.length_bits spn_config) 8 <= 64) :
  match float_value ((physical_value - get (Config.offset spn_config) 0)
                     / get (Config.resolution spn_config) 1)%float with
  | Some q =>
      exists frame,
        J1939Encoder.encode_spn physical_value spn_config = Ok frame
        /\ Frame.raw_value frame = Z.max 0 (round_half_even q)
  | None =>
      J1939Encoder.encode_spn physical_value spn_config
      = Raise (ValueError "cannot convert float NaN to integer")
      \/ J1939Encoder.encode_spn physical_value spn_config
         = Raise (OverflowError "cannot convert float infinity to integer")
  end.
Proof.
  destruct (float_value _) as [q|] eqn:Hq.
  - pose proof (physical_to_raw_finite _ _ _ q Hres Hq) as Hraw.
    destruct (encode_value_spec (Z.max 0 (round_half_even q))
                (get (Config.start_byte spn_config) 1)
                (get (Config.start_bit spn_config) 1)
                (get (Config.length_bits spn_config) 8))
      as (data & Henc & _); try assumption.
    unfold J1939Encoder.encode_spn. rewrite Hraw. cbn [bind].
    rewrite Henc. cbn [bind].
    eexists. split; reflexivity.
  - unfold J1939Encoder.encode_spn.
    rewrite physical_to_raw_nonzero by assumption.
    destruct (py_round_not_finite _ Hq) as [Hr|Hr]; rewrite Hr; auto.
Qed.

(** [engine_speed] at 1000 rpm. *)
Lemma encode_spn_succeeds_witness :
  exists frame,
    J1939Encoder.encode_spn 1000
      (signal 61444 190 "Engine Speed" 0.125 0 "rpm" 50 0 8031.875 4 1 16)
    = Ok frame
    /\ Frame.raw_value frame = Z.max 0 (round_half_even 8000).
Proof.
  exact (encode_spn_succeeds 1000
           (signal 61444 190 "Engine Speed" 0.125 0 "rpm" 50 0 8031.875 4 1 16)
           eq_refl ltac:(cbn; lia) ltac:(cbn; lia) ltac:(cbn; lia)
           ltac:(cbn; lia)).
Defined.

(** Every live signal has a non-zero resolution and a field inside the
    frame. *)
Lemma live_signals_well_formed (signal_id : string) (config : Config.t) :
  lookup signal_id LIVE_SIGNALS = Some config ->
  (get (Config.resolution config) 1 =? 0)%float = false
  /\ 1 <= get (Config.start_byte config) 1
  /\ 1 <= get (Config.start_bit config) 1
  /\ 0 <= get (Config.length_bits config) 8
  /\ (get (Config.start_byte config) 1 - 1) * 8
     + (get (Config.start_bit config) 1 - 1)
     + get (Config.length_bits config) 8 <= 64.
Proof.
  unfold LIVE_SIGNALS. cbn [lookup].
  repeat (destruct (String.eqb signal_id _);
          [intros H; injection H as <-; cbn; repeat split; lia|]).
  discriminate.
Qed.

(** X14. A request for a live signal whose [physical_value] converts to
    a float is never answered with the invalid-signal error: the response
    is the frame with status 200 when the binary64 quotient
    [(value - offset) / resolution] is finite, and the rounding error
    with status 500 when it is not. *)
Theorem encode_value_live_signal
    (float_from_string : string -> result float)
    (members : list (string * pyval)) (signal_id : string)
    (config : Config.t) (v : float)
    (Hsignal : item "signal_id" members = Some (JString signal_id))
    (Hid : lookup signal_id LIVE_SIGNALS = Some config)
    (Hv : py_float float_from_string
            (get (item "physical_value" members) (JInt 0)) = Ok v) :
  match float_value ((v - get (Config.offset config) 0)
                     / get (Config.resolution config) 1)%float with
  | Some q =>
      exists frame,
        encode_value float_from_string (Ok (JObject members))
        = (Encoded frame, 200)
        /\ Frame.physical_value frame = v
        /\ Frame.raw_value frame = Z.max 0 (round_half_even q)
  | None =>
      encode_value float_from_string (Ok (JObject members))
      = (Error "cannot convert float NaN to integer", 500)
      \/ encode_value float_from_string (Ok (JObject members))
         = (Error "cannot convert float infinity to integer", 500)
  end.
Proof.
  destruct (live_signals_well_formed signal_id config Hid)
    as (Hres & Hbyte & Hbit & Hlen & Hfit).
  pose proof (encode_spn_succeeds v config Hres Hbyte Hbit Hlen Hfit) as Henc.
  rewrite encode_value_object, Hsignal, Hv.
  cbn [get live_signal bind]. rewrite Hid.
  destruct (float_value _) as [q|].
  - destruct Henc as (frame & Hframe & Hraw).
    exists frame. rewrite Hframe. cbn [bind].
    split; [reflexivity|]. split; [|exact Hraw].
    unfold J1939Encoder.encode_spn in Hframe.
    destruct (J1939Encoder.physical_to_raw _ _ _); [|discriminate].
    cbn [bind] in Hframe.
    destruct (J1939Encoder.encode_value _ _ _ _); [|discriminate].
    cbn [bind] in Hframe. injection Hframe as <-. reflexivity.
  - destruct Henc as [Herr|Herr]; rewrite Herr; cbn; auto.
Qed.

(** [cab_temperature] with the integer 20 as its physical value. *)
Lemma encode_value_live_signal_witness :
  exists frame,
    encode_value not_a_number
      (Ok (JObject [("signal_id"%string, JString "cab_temperature");
                    ("physical_value"%string, JInt 20)]))
    = (Encoded frame, 200)
    /\ Frame.physical_value frame = 20%float
    /\ Frame.raw_value frame = Z.max 0 (round_half_even 9376).
Proof.
  exact (encode_value_live_signal not_a_number
           [("signal_id"%string, JString "cab_temperature");
            ("physical_value"%string, JInt 20)]
           "cab_temperature"
           (signal 65269 170 "Cab Temperature" 0.03125 (-273) "°C" 1000
              (-273) 1735 2 1 16) 20 eq_refl eq_refl eq_refl).
Defined.


(** * Further properties of the live simulation *)

(** Either nothing was emitted and the simulation is idle, or the last
    event emitted reports the flag. *)
Lemma handle_reported (s : Sim.t) (c : command) :
  (Sim.emitted s = [] /\ Sim.live_simulation_active s = false)
  \/ last (Sim.emitted s) (simulation_status false)
     = simulation_status (Sim.live_simulation_active s) ->
  (Sim.emitted (handle s c) = []
   /\ Sim.live_simulation_active (handle s c) = false)
  \/ last (Sim.emitted (handle s c)) (simulation_status false)
     = simulation_status (Sim.live_simulation_active (handle s c)).
Proof.
  intros Hinv. destruct c; cbn [handle].
  - unfold start_live_simulation.
    destruct (Sim.live_simulation_active s) eqn:Hs; cbn.
    + rewrite Hs. exact Hinv.
    + right. apply last_last.
  - right. cbn. apply last_last.
Qed.

Lemma handle_all_reported (commands : list command) :
  forall s,
    (Sim.emitted s = [] /\ Sim.live_simulation_active s = false)
    \/ last (Sim.emitted s) (simulation_status false)
       = simulation_status (Sim.live_simulation_active s) ->
    (Sim.emitted (handle_all commands s) = []
     /\ Sim.live_simulation_active (handle_all commands s) = false)
    \/ last (Sim.emitted (handle_all commands s)) (simulation_status false)
       = simulation_status
           (Sim.live_simulation_active (handle_all commands s)).
Proof.
  induction commands as [|c commands IH]; intros s Hinv; [exact Hinv|].
  cbn [handle_all fold_left]. apply IH, handle_reported, Hinv.
Qed.

(** X16. After any sequence of start and stop events, the flag is the one
    the last event asks for, and, starting from the state the module is
    loaded with, the last [simulation_status] event that was emitted
    reports exactly that flag. *)
Theorem handle_all_last_command (commands : list command) (c : command)
    (s : Sim.t) :
  Sim.live_simulation_active (handle_all (commands ++ [c]) s)
  = match c with
    | start_command => true
    | stop_command => false
    end
  /\ last (Sim.emitted (handle_all (commands ++ [c]) initial))
       (simulation_status false)
     = simulation_status
         (Sim.live_simulation_active (handle_all (commands ++ [c]) initial)).
Proof.
  split.
  - unfold handle_all. rewrite fold_left_app. cbn [fold_left].
    set (s' := fold_left handle commands s).
    destruct c; cbn [handle]; [|reflexivity].
    unfold start_live_simulation.
    destruct (Sim.live_simulation_active s') eqn:Hs'; [exact Hs'|reflexivity].
  - destruct (handle_all_reported (commands ++ [c]) initial)
      as [[Hnil Hidle]|Hlast]; [left; split; reflexivity| |exact Hlast].
    rewrite Hnil, Hidle. reflexivity.
Qed.

(** Before the first worker has looked at the flag again, a stop followed
    by a start leaves it running beside the new one. *)
Lemma filter_fresh (thread : nat) (workers : list nat) :
  Forall (fun w => (w < thread)%nat) workers ->
  filter (fun w => negb (Nat.eqb w thread)) workers = workers.
Proof.
  induction 1 as [|w tl Hw Htl IH]; cbn; [reflexivity|].
  destruct (Nat.eqb_spec w thread); [lia|]. cbn. rewrite IH. reflexivity.
Qed.

(** X17. A stop is only a request: the worker stays until it tests the
    flag at the head of its loop.  When an idle simulation is started,
    stopped and started again before the first worker has tested the
    flag, two workers run, and neither returns at its next test; when the
    first worker tests the flag between the stop and the second start, it
    returns and one worker runs. *)
Theorem start_stop_start_workers (s : Sim.t)
    (Hidle : Sim.live_simulation_active s = false)
    (Hfresh : Forall (fun w => (w < Sim.created s)%nat) (Sim.workers s)) :
  let first := Sim.created s in
  let second := S (Sim.created s) in
  let restarted :=
    start_live_simulation (stop_live_simulation (start_live_simulation s)) in
  Sim.workers restarted = Sim.workers s ++ [first; second]
  /\ worker_loop_head first restarted = restarted
  /\ worker_loop_head second restarted = restarted
  /\ Sim.workers
       (start_live_simulation
          (worker_loop_head first
             (stop_live_simulation (start_live_simulation s))))
     = Sim.workers s ++ [second].
Proof.
  assert (Hstart : start_live_simulation s
            = {| Sim.live_simulation_active := true;
                 Sim.live_simulation_thread := Some (Sim.created s);
                 Sim.created := S (Sim.created s);
                 Sim.workers := Sim.workers s ++ [Sim.created s];
                 Sim.emitted := Sim.emitted s ++ [simulation_status true] |})
    by (unfold start_live_simulation; rewrite Hidle; reflexivity).
  cbn zeta. rewrite Hstart.
  unfold stop_live_simulation, worker_loop_head, start_live_simulation.
  cbn. rewrite <- app_assoc. cbn.
  split; [reflexivity|]. split; [reflexivity|]. split; [reflexivity|].
  rewrite filter_app. cbn. rewrite Nat.eqb_refl. cbn.
  rewrite filter_fresh by assumption.
  rewrite app_nil_r. reflexivity.
Qed.

(** From the state the module is loaded with. *)
Lemma start_stop_start_workers_witness :
  Sim.workers
    (start_live_simulation
       (stop_live_simulation (start_live_simulation initial)))
  = [0%nat; 1%nat]
  /\ Sim.workers
       (start_live_simulation
          (worker_loop_head 0
             (stop_live_simulation (start_live_simulation initial))))
     = [1%nat].
Proof.
  destruct (start_stop_start_workers initial eq_refl (Forall_nil _))
    as (Htwo & _ & _ & Hone).
  split; [exact Htwo|exact Hone].
Defined.

(** X18. A worker that leaves its loop on an exception does not clear the
    flag.  When it was the only worker, the simulation still counts as
    active with no worker left, a further start does nothing, and only a
    stop followed by a start brings a worker back. *)
Theorem worker_break_leaves_flag (thread : nat) (s : Sim.t)
    (Hactive : Sim.live_simulation_active s = true)
    (Hworkers : Sim.workers s = [thread]) :
  let broken := worker_break thread s in
  Sim.live_simulation_active broken = true
  /\ Sim.workers broken = []
  /\ start_live_simulation broken = broken
  /\ Sim.workers
       (start_live_simulation (stop_live_simulation broken))
     = [Sim.created s].
Proof.
  cbn zeta. unfold worker_break, start_live_simulation. cbn.
  rewrite Hactive, Hworkers. cbn. rewrite Nat.eqb_refl. cbn.
  repeat split.
Qed.

(** The first worker after a start from the initial state. *)
Lemma worker_break_leaves_flag_witness :
  Sim.live_simulation_active
    (worker_break 0 (start_live_simulation initial)) = true
  /\ Sim.workers (worker_break 0 (start_live_simulation initial)) = [].
Proof.
  destruct (worker_break_leaves_flag 0 (start_live_simulation initial)
              eq_refl eq_refl) as (Hflag & Hnone & _).
  split; [exact Hflag|exact Hnone].
Defined.

(** * Properties of the catalog routes *)

Lemma insert_by_perm {A : Type} (key : A -> Z) (x : A) (l : list A) :
  Permutation (insert_by key x l) (x :: l).
Proof.
  induction l as [|y tl IH]; cbn; [apply Permutation_refl|].
  destruct (key x <=? key y); [apply Permutation_refl|].
  apply perm_trans with (y :: x :: tl); [|apply perm_swap].
  apply perm_skip. exact IH.
Qed.

Lemma sorted_perm {A : Type} (key : A -> Z) (l : list A) :
  Permutation (sorted key l) l.
Proof.
  induction l as [|x tl IH]; cbn; [apply perm_nil|].
  apply perm_trans with (x :: sorted key tl); [apply insert_by_perm|].
  apply perm_skip. exact IH.
Qed.

Lemma insert_by_sorted {A : Type} (key : A -> Z) (x : A) (l : list A) :
  StronglySorted (fun a b => key a <= key b) l ->
  StronglySorted (fun a b => key a <= key b) (insert_by key x l).
Proof.
  induction 1 as [|y tl Hsorted IH Hall]; cbn.
  - constructor; constructor.
  - destruct (Z.leb_spec (key x) (key y)) as [Hle|Hgt].
    + constructor; [constructor; assumption|].
      constructor; [assumption|].
      eapply Forall_impl; [|exact Hall]. cbv beta. intros z Hz. lia.
    + constructor; [exact IH|].
      apply (Permutation_Forall (Permutation_sym (insert_by_perm key x tl))).
      constructor; [lia|assumption].
Qed.

Lemma sorted_sorted {A : Type} (key : A -> Z) (l : list A) :
  StronglySorted (fun a b => key a <= key b) (sorted key l).
Proof.
  induction l as [|x tl IH]; cbn; [constructor|].
  apply insert_by_sorted. exact IH.
Qed.

(** X19. Whatever the database holds, [get_pgns] returns one item for
    each of its entries, in ascending order of the PGN, and the [hex]
    field of an item whose PGN is not negative is ["0x"] followed by
    digits that read back as the PGN. *)
Theorem get_pgns_sorted (database : list (Z * Pgn.t)) :
  StronglySorted (fun a b => PgnItem.pgn a <= PgnItem.pgn b)
    (get_pgns database)
  /\ Permutation (map PgnItem.pgn (get_pgns database)) (map fst database)
  /\ List.length (get_pgns database) = List.length database
  /\ forall item,
       In item (get_pgns database) ->
       0 <= PgnItem.pgn item ->
       exists data digits,
         In (PgnItem.pgn item, data) database
         /\ PgnItem.name item = Pgn.name data
         /\ PgnItem.hex item = ("0x" ++ digits)%string
         /\ digits_value 16 digits 0 = Some (PgnItem.pgn item).
Proof.
  unfold get_pgns.
  set (items := map _ database).
  pose proof (sorted_perm PgnItem.pgn items) as Hperm.
  assert (Hkeys : map PgnItem.pgn items = map fst database).
  { unfold items. rewrite map_map. apply map_ext.
    intros [pgn data]. reflexivity. }
  split; [apply sorted_sorted|].
  split; [rewrite <- Hkeys; apply Permutation_map; exact Hperm|].
  split.
  - rewrite (Permutation_length Hperm). unfold items. apply length_map.
  - intros item Hin Hpgn.
    apply (Permutation_in _ Hperm) in Hin.
    unfold items in Hin. apply in_map_iff in Hin.
    destruct Hin as ([pgn data] & <- & Hentry).
    cbn in Hpgn |- *.
    exists data, (format_int 16 4 pgn).
    split; [exact Hentry|]. split; [reflexivity|]. split; [reflexivity|].
    apply format_int_value; lia.
Qed.

(** X20. [get_spns] returns an empty list for a PGN that is not in the
    database, and for a PGN that is, one item for each SPN of the group,
    in ascending order of the SPN, with [start_bit] read as 1 when the
    entry has none. *)
Theorem get_spns_sorted (database : list (Z * Pgn.t)) (pgn : Z) :
  match lookup_pgn pgn database with
  | None => get_spns database pgn = []
  | Some data =>
      StronglySorted (fun a b => SpnItem.spn a <= SpnItem.spn b)
        (get_spns database pgn)
      /\ Permutation (get_spns database pgn) (map spn_item (Pgn.spns data))
      /\ Permutation (map SpnItem.spn (get_spns database pgn))
           (map fst (Pgn.spns data))
      /\ List.length (get_spns database pgn) = List.length (Pgn.spns data)
  end.
Proof.
  unfold get_spns.
  destruct (lookup_pgn pgn database) as [data|]; [|reflexivity].
  pose proof (sorted_perm SpnItem.spn (map spn_item (Pgn.spns data))) as Hperm.
  split; [apply sorted_sorted|]. split; [exact Hperm|]. split.
  - replace (map fst (Pgn.spns data))
      with (map SpnItem.spn (map spn_item (Pgn.spns data))).
    + apply Permutation_map. exact Hperm.
    + rewrite map_map. apply map_ext. intros [spn_id spn_data]. reflexivity.
  - rewrite (Permutation_length Hperm). apply length_map.
Qed.

(** * Properties of a worker pass *)

Lemma emitted_events_app (l1 l2 : list effect) :
  emitted_events (l1 ++ l2) = emitted_events l1 ++ emitted_events l2.
Proof. unfold emitted_events. apply flat_map_app. Qed.

Lemma time_sleep_ok (seconds : float) (slept : effect) :
  time_sleep seconds = Ok slept -> slept = sleep seconds.
Proof.
  unfold time_sleep.
  destruct (is_nan seconds); [discriminate|].
  destruct (_ && _); [|discriminate].
  destruct (_ <? 0)%float; [discriminate|].
  intros H. injection H as <-. reflexivity.
Qed.

(** What one iteration can do: at most one event, for the signal at
    hand, carrying the frame of [encode_spn]; it goes on to the next
    signal only after the event and the sleep, whose length is the
    transmission rate in seconds. *)
Lemma worker_step_cases (signal_id : string) (config : Config.t) (u now : float) :
  forall effects outcome,
    worker_step (signal_id, config) u now = (effects, outcome) ->
    (emitted_events effects = [] /\ outcome <> None)
    \/ exists payload frame,
         emitted_events effects = [payload]
         /\ LiveSignal.signal_id payload = signal_id
         /\ J1939Encoder.encode_spn (LiveSignal.physical_value payload) config
            = Ok frame
         /\ LiveSignal.raw_value payload = Frame.raw_value frame
         /\ LiveSignal.data_bytes payload = Frame.data_bytes frame
         /\ LiveSignal.can_id_hex payload = Frame.can_id_hex frame
         /\ (outcome = None -> exists rate seconds,
               Config.transmission_rate config = Some rate
               /\ int_to_float rate = Ok seconds
               /\ effects
                  = [emit_live_signal payload; sleep (seconds / 1000)]).
Proof.
  intros effects outcome. unfold worker_step.
  destruct (Config.min_physical config) as [lo|];
    [|intros H; injection H as <- <-; left; split; [reflexivity|discriminate]].
  destruct (Config.max_physical config) as [hi|];
    [|intros H; injection H as <- <-; left; split; [reflexivity|discriminate]].
  destruct (J1939Encoder.encode_spn (uniform lo hi u) config)
    as [frame|e] eqn:Hframe;
    [|intros H; injection H as <- <-; left; split; [reflexivity|discriminate]].
  destruct (Config.unit config) as [unit|];
    [|intros H; injection H as <- <-; left; split; [reflexivity|discriminate]].
  intros H. right. eexists. exists frame.
  destruct (Config.transmission_rate config) as [rate|];
    [destruct (int_to_float rate) as [r|e] eqn:Hrate;
     [destruct (time_sleep (r / 1000)) as [slept|e] eqn:Hsleep;
      [apply time_sleep_ok in Hsleep; subst slept|]|]|];
    injection H as <- <-; cbn;
    (split; [reflexivity|]); repeat (split; [first [reflexivity|exact Hframe]|]);
    try discriminate.
  intros _. exists rate, r. split; [reflexivity|]. split; [exact Hrate|].
  reflexivity.
Qed.

(** X21. In one pass the worker emits at most one event per signal, in
    the order in which the signals are declared: the signals of the
    emitted events are an initial part of the declared ones.  When the
    pass ends without an exception, what it did is, signal after signal
    in the declared order, the event of the signal and then one sleep of
    the signal's transmission rate in seconds, and nothing else. *)
Theorem worker_pass_order (signals : list (string * Config.t))
    (random time : nat -> float) (k : nat) :
  let (effects, outcome) := worker_pass signals random time k in
  (exists rest,
     map fst signals
     = map LiveSignal.signal_id (emitted_events effects) ++ rest)
  /\ (outcome = None ->
      exists steps : list (LiveSignal.t * float),
        effects
        = flat_map (fun step => [emit_live_signal (fst step); sleep (snd step)])
            steps
        /\ Forall2
             (fun step entry =>
                LiveSignal.signal_id (fst step) = fst entry
                /\ exists rate seconds,
                     Config.transmission_rate (snd entry) = Some rate
                     /\ int_to_float rate = Ok seconds
                     /\ snd step = (seconds / 1000)%float)
             steps signals).
Proof.
  revert k. induction signals as [|[signal_id config] rest IH]; intros k.
  - cbn. split; [exists []; reflexivity|]. intros _. exists [].
    split; [reflexivity|constructor].
  - cbn [worker_pass].
    destruct (worker_step (signal_id, config) (random k) (time k))
      as [effects outcome] eqn:Hstep.
    destruct (worker_step_cases _ _ _ _ _ _ Hstep)
      as [[Hnone Hfail]|(payload & frame & Hone & Hid & _ & _ & _ & _ & Hnext)].
    + destruct outcome as [exn|]; [|congruence].
      rewrite Hnone. split; [eexists; reflexivity|discriminate].
    + destruct outcome as [exn|].
      * rewrite Hone. cbn. rewrite Hid.
        split; [exists (map fst rest); reflexivity|discriminate].
      * specialize (IH (S k)).
        destruct (worker_pass rest random time (S k)) as [more outcome].
        destruct IH as [(tail & Hprefix) Hdone].
        rewrite emitted_events_app, Hone, map_app. cbn [map app].
        rewrite Hid. split.
        -- exists tail. rewrite Hprefix. reflexivity.
        -- intros Hok. destruct (Hdone Hok) as (steps & Hmore & Hall).
           destruct (Hnext eq_refl) as (rate & seconds & Hrate & Hconv & ->).
           exists ((payload, (seconds / 1000)%float) :: steps).
           split; [cbn; rewrite Hmore; reflexivity|].
           constructor; [|exact Hall].
           cbn [fst snd]. split; [exact Hid|].
           exists rate, seconds. repeat split; assumption.
Qed.

(** X22. Every event a pass emits carries the frame [encode_spn] returns
    for the physical value in the event and the configuration of the
    event's signal: its raw value is never negative, and its data bytes
    are sixteen hexadecimal digits. *)
Theorem worker_pass_events (signals : list (string * Config.t))
    (random time : nat -> float) (k : nat) (payload : LiveSignal.t)
    (Hin : In payload
             (emitted_events (fst (worker_pass signals random time k)))) :
  exists config frame,
    In (LiveSignal.signal_id payload, config) signals
    /\ J1939Encoder.encode_spn (LiveSignal.physical_value payload) config
       = Ok frame
    /\ LiveSignal.raw_value payload = Frame.raw_value frame
    /\ LiveSignal.data_bytes payload = Frame.data_bytes frame
    /\ LiveSignal.can_id_hex payload = Frame.can_id_hex frame
    /\ 0 <= LiveSignal.raw_value payload
    /\ String.length (LiveSignal.data_bytes payload) = 16%nat.
Proof.
  revert k Hin.
  induction signals as [|[signal_id config] rest IH]; intros k Hin;
    [contradiction|].
  cbn [worker_pass] in Hin.
  destruct (worker_step (signal_id, config) (random k) (time k))
    as [effects outcome] eqn:Hstep.
  assert (Hhere : In payload (emitted_events effects) ->
            exists cfg frame,
              In (LiveSignal.signal_id payload, cfg)
                ((signal_id, config) :: rest)
              /\ J1939Encoder.encode_spn (LiveSignal.physical_value payload)
                   cfg = Ok frame
              /\ LiveSignal.raw_value payload = Frame.raw_value frame
              /\ LiveSignal.data_bytes payload = Frame.data_bytes frame
              /\ LiveSignal.can_id_hex payload = Frame.can_id_hex frame
              /\ 0 <= LiveSignal.raw_value payload
              /\ String.length (LiveSignal.data_bytes payload) = 16%nat).
  { intros Hp.
    destruct (worker_step_cases _ _ _ _ _ _ Hstep)
      as [[Hnone _]|(p & frame & Hone & Hid & Hframe & Hraw & Hbytes & Hhex & _)].
    - rewrite Hnone in Hp. contradiction.
    - rewrite Hone in Hp. destruct Hp as [<-|[]].
      exists config, frame. rewrite Hid.
      split; [left; reflexivity|]. split; [exact Hframe|].
      split; [exact Hraw|]. split; [exact Hbytes|]. split; [exact Hhex|].
      destruct (encode_spn_inv _ _ _ Hframe) as [Hptr _].
      split; [rewrite Hraw; exact (physical_to_raw_nonneg _ _ _ _ Hptr)|].
      destruct (encode_spn_fields _ _ _ Hframe)
        as (raw & data & _ & Hdata & _ & _ & Hdb & _).
      unfold J1939Encoder.encode_value in Hdata.
      destruct (_ <? 0); [discriminate|].
      apply encode_loop_frame in Hdata; [|apply is_frame_zero].
      destruct Hdata as [Hlen Hrange].
      destruct (hex_upper_fromhex data Hrange) as (_ & Hlen2 & _).
      rewrite Hbytes, Hdb, Hlen2, Hlen. reflexivity. }
  destruct outcome as [exn|]; [exact (Hhere Hin)|].
  destruct (worker_pass rest random time (S k)) as [more outcome] eqn:Hrest.
  cbn [fst] in Hin. rewrite emitted_events_app in Hin.
  apply in_app_or in Hin. destruct Hin as [Hp|Hp]; [exact (Hhere Hp)|].
  destruct (IH (S k)) as (cfg & frame & Hcfg & Hother);
    [rewrite Hrest; exact Hp|].
  exists cfg, frame. split; [right; exact Hcfg|exact Hother].
Qed.

(** A pass over [LIVE_SIGNALS] with every random number 0.5: the first
    event is [engine_speed] at the middle of its range. *)
Lemma worker_pass_events_witness :
  exists payload,
    In payload
      (emitted_events
         (fst (worker_pass LIVE_SIGNALS (fun _ => 0.5%float)
                 (fun _ => 1700000000%float) 0)))
    /\ LiveSignal.signal_id payload = "engine_speed"%string
    /\ LiveSignal.physical_value payload = 4015.9375%float
    /\ 0 <= LiveSignal.raw_value payload.
Proof.
  eexists. split; [vm_compute; left; reflexivity|].
  split; [reflexivity|]. split; [reflexivity|].
  match goal with
  | |- 0 <= LiveSignal.raw_value ?p =>
      destruct (worker_pass_events LIVE_SIGNALS (fun _ => 0.5%float)
                  (fun _ => 1700000000%float) 0 p)
        as (_ & _ & _ & _ & _ & _ & _ & Hnonneg & _);
        [vm_compute; left; reflexivity|exact Hnonneg]
  end.
Defined.
